(** * live555ProxyServer: the orchestration layer of the RTSP proxy

    A shallow embedding of [src/proxyServer/live555ProxyServer.cpp]:
    the command-line option loop, the creation of the RTSP server with its
    fall-back to port 554, the loop that registers one proxied session per
    line of the definition file, and the hand-over to the event loop.

    The streaming engine (liveMedia / BasicUsageEnvironment) is an interface
    whose answers the program does not control; it is the record [Engine]
    below.  The C and C++ library calls the program makes ([sscanf], the
    members of [std::string], [std::getline]) are written out with the
    preconditions and exceptions their standards give them. *)

From Stdlib Require Import ZArith NArith List Bool Ascii String Lia.
Import ListNotations.

Local Open Scope string_scope.
Local Open Scope Z_scope.

(** ** Characters and C strings *)

Definition NUL : ascii := "000"%char.
Definition nl : string := String "010"%char EmptyString.
Definition tab : string := String "009"%char EmptyString.
Definition dquote : string := String "034"%char EmptyString.

(** [s[i]] on a NUL-terminated [char*]: reading at the length returns the
    terminator.  The program only reads index 1 after it has seen a
    non-NUL character at index 0. *)
Definition cchar (s : string) (i : nat) : ascii :=
  match String.get i s with
  | Some c => c
  | None => NUL
  end.

(** What a [char const*] obtained from [std::string::c_str()] denotes to a
    callee that reads a C string: the characters before the first NUL. *)
Fixpoint c_str (s : string) : string :=
  match s with
  | EmptyString => EmptyString
  | String c s' => if Ascii.eqb c NUL then EmptyString else String c (c_str s')
  end.

(** ** [sscanf(tok, "%hu", &port)] *)

Module Scanf.

(** [isspace] in the C locale. *)
Definition isspace (c : ascii) : bool :=
  let n := N_of_ascii c in
  (N.eqb n 32 || (N.leb 9 n && N.leb n 13))%bool.

Definition isdigit (c : ascii) : bool :=
  let n := N_of_ascii c in
  (N.leb 48 n && N.leb n 57)%bool.

Definition digit_val (c : ascii) : Z := Z.of_N (N_of_ascii c) - 48.

Fixpoint skip_space (s : string) : string :=
  match s with
  | String c s' => if isspace c then skip_space s' else s
  | EmptyString => EmptyString
  end.

(** The value of the longest run of decimal digits at the front of [s],
    continuing from [acc]. *)
Fixpoint scan_digits (acc : Z) (s : string) : Z :=
  match s with
  | String c s' =>
      if isdigit c then scan_digits (10 * acc + digit_val c) s' else acc
  | EmptyString => acc
  end.

(** [unsigned long] of the LP64 targets the server is built for. *)
Definition ULONG_MAX : Z := 2 ^ 64 - 1.
Definition USHRT_MAX : Z := 2 ^ 16 - 1.

(** [strtoul] on a subject sequence with sign [neg] and digits of exact
    value [v]: a value out of range gives [ULONG_MAX]; otherwise the value,
    negated in the unsigned type when the sign is a minus. *)
Definition strtoul_value (neg : bool) (v : Z) : Z :=
  if ULONG_MAX <? v then ULONG_MAX
  else if neg then (- v) mod (ULONG_MAX + 1) else v.

(** The store through [unsigned short*] of the [h] length modifier.  ISO C
    leaves a converted value that does not fit the object undefined; the
    C libraries the server runs on (glibc, musl) convert with [strtoul]
    and keep the low 16 bits, and that is what is written here. *)
Definition to_ushort (v : Z) : Z := v mod (USHRT_MAX + 1).

(** The [%hu] directive on [s]: white space is skipped, then an optionally
    signed decimal integer is matched.  [Some v]: one item was converted
    and [v] stored ([sscanf] returns 1).  [None]: nothing was converted
    ([sscanf] returns 0 or [EOF]) and the variable is left alone. *)
Definition sscanf_hu (s : string) : option Z :=
  let s1 := skip_space s in
  let neg :=
    match s1 with
    | String c _ => Ascii.eqb c "-"
    | EmptyString => false
    end in
  let s2 :=
    match s1 with
    | String c r =>
        if (Ascii.eqb c "-" || Ascii.eqb c "+")%bool then r else s1
    | EmptyString => s1
    end in
  match s2 with
  | String c _ =>
      if isdigit c
      then Some (to_ushort (strtoul_value neg (scan_digits 0 s2)))
      else None
  | EmptyString => None
  end.

End Scanf.

(** ** [std::string] members used by the loader *)

Module StdString.

(** [std::size_t] is 64 bits wide; [npos] is its largest value. *)
Definition SIZE_MOD : Z := 2 ^ 64.
Definition npos : Z := SIZE_MOD - 1.
Definition size_add (a b : Z) : Z := (a + b) mod SIZE_MOD.

Definition size (s : string) : Z := Z.of_nat (String.length s).

(** [front()] requires [!empty()]; [None] is the violated precondition. *)
Definition front (s : string) : option ascii :=
  match s with
  | EmptyString => None
  | String c _ => Some c
  end.

(** [find(" ")]: index of the first occurrence of the character, counted
    from [i], or [npos]. *)
Fixpoint find_from (c : ascii) (i : Z) (s : string) : Z :=
  match s with
  | EmptyString => npos
  | String a s' => if Ascii.eqb a c then i else find_from c (i + 1) s'
  end.

Definition find (s : string) (c : ascii) : Z := find_from c 0 s.

Fixpoint drop (n : nat) (s : string) : string :=
  match n, s with
  | O, _ => s
  | S n', String _ s' => drop n' s'
  | S _, EmptyString => EmptyString
  end.

Fixpoint take (n : nat) (s : string) : string :=
  match n, s with
  | S n', String c s' => String c (take n' s')
  | _, _ => EmptyString
  end.

(** [substr(pos, n)]: throws [std::out_of_range] ([None]) when
    [pos > size()]; otherwise the [min(n, size() - pos)] characters
    from [pos]. *)
Definition substr (s : string) (pos n : Z) : option string :=
  if size s <? pos then None
  else
    let rlen := Z.min n (size s - pos) in
    Some (take (Z.to_nat rlen) (drop (Z.to_nat pos) s)).

End StdString.

(** ** [std::getline] over the bytes of a file *)

(** The lines that successive [std::getline(input, line)] calls deliver
    before the stream fails: a line ends at a newline, which is dropped;
    characters after the last newline form a last line; at the end of the
    file with nothing extracted the call fails.  [cur] holds the characters
    of the line being read. *)
Fixpoint getlines_from (cur : string) (bytes : string) : list string :=
  match bytes with
  | EmptyString =>
      match cur with
      | EmptyString => []
      | _ => [cur]
      end
  | String c rest =>
      if Ascii.eqb c "010"%char
      then cur :: getlines_from EmptyString rest
      else getlines_from (cur ++ String c EmptyString) rest
  end.

Definition getlines (bytes : string) : list string :=
  getlines_from EmptyString bytes.

(** ** The streaming engine *)

(** The calls the program makes into liveMedia.  [World] is everything the
    engine owns (sockets, the environment's result message, the table of
    sessions); every call may change it. *)
Record Engine : Type := {
  World : Type;
  RTSPServer : Type;
  ServerMediaSession : Type;
  (** [RTSPServer::createNew(env, port, authDB)]; [None] is [NULL]. *)
  RTSPServer_createNew : Z -> World -> option RTSPServer * World;
  (** [env->getResultMsg()] *)
  getResultMsg : World -> string;
  (** [ProxyServerMediaSession::createNew(env, server, url, name,
      username, password, tunnelOverHTTPPortNum, verbosityLevel)] *)
  ProxyServerMediaSession_createNew :
    RTSPServer -> string -> string -> option string -> option string ->
    Z -> Z -> World -> ServerMediaSession * World;
  addServerMediaSession : RTSPServer -> ServerMediaSession -> World -> World;
  rtspURL : RTSPServer -> ServerMediaSession -> World -> string
}.

(** What has been written to [*env] with [<<]. *)
Inductive item : Type :=
| Text (s : string)
| Number (n : Z)
| NullText.

(** The observable actions of a run, oldest first. *)
Inductive event : Type :=
| Out (i : item)
| CreateServer (port : Z)
| CreateSession (sourceURL publishedName : string)
                (user pass : option string) (tunnelPort verbosity : Z)
| AddSession
| EventLoop.

(** How a computation ends. *)
Inductive outcome (A : Type) : Type :=
| Ret (a : A)
| Exit (status : Z)        (* [exit(status)] *)
| Undefined                (* a library precondition was violated *)
| Throw (what : string)    (* an exception nobody catches *)
| Forever.                 (* [doEventLoop()] does not return *)

Arguments Ret {A} a.
Arguments Exit {A} status.
Arguments Undefined {A}.
Arguments Throw {A} what.
Arguments Forever {A}.

Section Program.

Variable E : Engine.

(** The globals of the translation unit, the engine's world and the
    trace. *)
Record state : Type := mkState {
  progName : option string;
  verbosityLevel : Z;
  tunnelOverHTTPPortNum : Z;
  rtspServerPortNum : Z;
  username : option string;
  password : option string;
  world : World E;
  trace : list event
}.

(** The globals as initialised at lines 25 to 34. *)
Definition initial (w : World E) : state :=
  mkState None 0 0 554 None None w [].

Definition set_progName (p : option string) (s : state) : state :=
  mkState p (verbosityLevel s) (tunnelOverHTTPPortNum s)
          (rtspServerPortNum s) (username s) (password s)
          (world s) (trace s).

Definition set_verbosityLevel (v : Z) (s : state) : state :=
  mkState (progName s) v (tunnelOverHTTPPortNum s)
          (rtspServerPortNum s) (username s) (password s)
          (world s) (trace s).

Definition set_rtspServerPortNum (p : Z) (s : state) : state :=
  mkState (progName s) (verbosityLevel s) (tunnelOverHTTPPortNum s)
          p (username s) (password s) (world s) (trace s).

Definition set_world (w : World E) (s : state) : state :=
  mkState (progName s) (verbosityLevel s) (tunnelOverHTTPPortNum s)
          (rtspServerPortNum s) (username s) (password s) w (trace s).

Definition record (e : event) (s : state) : state :=
  mkState (progName s) (verbosityLevel s) (tunnelOverHTTPPortNum s)
          (rtspServerPortNum s) (username s) (password s)
          (world s) (trace s ++ [e]).

(** *** The monad of the program *)

Definition M (A : Type) : Type := state -> outcome A * state.

Definition ret {A} (a : A) : M A := fun s => (Ret a, s).

Definition bind {A B} (m : M A) (k : A -> M B) : M B :=
  fun s =>
    match m s with
    | (Ret a, s') => k a s'
    | (Exit n, s') => (Exit n, s')
    | (Undefined, s') => (Undefined, s')
    | (Throw w, s') => (Throw w, s')
    | (Forever, s') => (Forever, s')
    end.

Notation "x <- m ;; k" := (bind m (fun x => k))
  (at level 61, m at next level, right associativity).
Notation "m ;; k" := (bind m (fun _ => k))
  (at level 61, right associativity).

Definition modify (f : state -> state) : M unit := fun s => (Ret tt, f s).
Definition gets {A} (f : state -> A) : M A := fun s => (Ret (f s), s).
Definition exit {A} (n : Z) : M A := fun s => (Exit n, s).
Definition out (i : item) : M unit := modify (record (Out i)).
Definition print (t : string) : M unit := out (Text t).

(** A library call with a precondition, and one that may throw. *)
Definition require {A} (o : option A) : M A :=
  match o with
  | Some a => ret a
  | None => fun s => (Undefined, s)
  end.

Definition or_throw {A} (what : string) (o : option A) : M A :=
  match o with
  | Some a => ret a
  | None => fun s => (Throw what, s)
  end.

(** *** [usage()], lines 41 to 48 *)

Definition usage {A} : M A :=
  print "Usage: " ;;
  p <- gets progName ;;
  out (match p with Some n => Text n | None => NullText end) ;;
  print " [-v|-V]" ;;
  print " [-p <rtspServer-port>]" ;;
  print " <rtsp_url_definition_file>" ;;
  exit 1.

(** *** The option loop, lines 66 to 115

    [args] is [argv[1..argc-1]].  The loop returns what is left of it when
    it stops: at the first argument that does not begin with a dash, or at
    the end. *)
Fixpoint parse_options (args : list string) : M (list string) :=
  match args with
  | [] => ret []
  | opt :: rest =>
      if negb (Ascii.eqb (cchar opt 0) "-") then ret args
      else if Ascii.eqb (cchar opt 1) "v" then
        modify (set_verbosityLevel 1) ;; parse_options rest
      else if Ascii.eqb (cchar opt 1) "V" then
        modify (set_verbosityLevel 2) ;; parse_options rest
      else if Ascii.eqb (cchar opt 1) "p" then
        match rest with
        | tok :: rest' =>
            if negb (Ascii.eqb (cchar tok 0) "-") then
              match Scanf.sscanf_hu tok with
              | Some v =>
                  modify (set_rtspServerPortNum v) ;;
                  if 0 <? v then parse_options rest' else usage
              | None => usage
              end
            else usage
        | [] => usage
        end
      else usage
  end.

(** Lines 63 to 117: the whole of the argument check.  It returns the
    shifted [argv[1..]], whose head is the path of the definition file. *)
Definition parse_args (argv : list string) : M (list string) :=
  modify (set_progName (hd_error argv)) ;;
  (if Z.of_nat (List.length argv) <? 2 then usage else ret tt) ;;
  rest <- parse_options (tl argv) ;;
  (if Z.of_nat (List.length rest) + 1 <? 2 then usage else ret tt) ;;
  ret rest.

(** *** The RTSP server, lines 36 to 39 and 122 to 139 *)

Definition createRTSPServer (port : Z) : M (option (RTSPServer E)) :=
  fun s =>
    let r := RTSPServer_createNew E port (world s) in
    (Ret (fst r), record (CreateServer port) (set_world (snd r) s)).

Definition bootstrap : M (RTSPServer E) :=
  p <- gets rtspServerPortNum ;;
  first <- createRTSPServer p ;;
  rtspServer <-
    match first with
    | None =>
        if negb (p =? 554) then
          print "Unable to create a RTSP server with port number " ;;
          out (Number p) ;;
          print ": " ;;
          msg <- gets (fun s => getResultMsg E (world s)) ;;
          print msg ;;
          print nl ;;
          print ("Trying instead with the standard port numbers (554)..."
                   ++ nl) ;;
          modify (set_rtspServerPortNum 554) ;;
          createRTSPServer 554
        else ret None
    | Some _ => ret first
    end ;;
  match rtspServer with
  | None =>
      print "Failed to create RTSP server: " ;;
      msg <- gets (fun s => getResultMsg E (world s)) ;;
      print msg ;;
      print nl ;;
      exit 1
  | Some server => ret server
  end.

(** *** The definition file, lines 142 to 176 *)

Definition createProxy (server : RTSPServer E) (url name : string)
  : M (ServerMediaSession E) :=
  fun s =>
    let r := ProxyServerMediaSession_createNew E server url name
               (username s) (password s)
               (tunnelOverHTTPPortNum s) (verbosityLevel s) (world s) in
    (Ret (fst r),
     record (CreateSession url name (username s) (password s)
               (tunnelOverHTTPPortNum s) (verbosityLevel s))
            (set_world (snd r) s)).

Definition addSession (server : RTSPServer E) (sms : ServerMediaSession E)
  : M unit :=
  modify (fun s =>
    record AddSession (set_world (addServerMediaSession E server sms (world s)) s)).

(** The body of the [while] loop for one line, lines 150 to 172. *)
Definition load_line (server : RTSPServer E) (line : string) : M unit :=
  c <- require (StdString.front line) ;;
  if Ascii.eqb c "#" then ret tt
  else if String.eqb line "" then ret tt
  else
    let pos := StdString.find line " " in
    url <- or_throw "basic_string::substr"
             (StdString.substr line 0 pos) ;;
    name <- or_throw "basic_string::substr"
             (StdString.substr line (StdString.size_add pos 1)
                               StdString.npos) ;;
    let proxiedStreamURL := c_str line in
    let streamName := c_str name in
    sms <- createProxy server proxiedStreamURL streamName ;;
    addSession server sms ;;
    proxyStreamURL <- gets (fun s => rtspURL E server sms (world s)) ;;
    print ("RTSP stream, proxying the stream " ++ dquote) ;;
    print proxiedStreamURL ;;
    print (dquote ++ nl) ;;
    print (tab ++ "Play this stream using the URL: ") ;;
    print proxyStreamURL ;;
    print nl.

Fixpoint load_lines (server : RTSPServer E) (lines : list string) : M unit :=
  match lines with
  | [] => ret tt
  | line :: more => load_line server line ;; load_lines server more
  end.

(** [fs] gives the bytes of the files that can be opened.  A path is a
    [char*], read up to its terminator. *)
Definition filesystem : Type := string -> option string.

Definition load (fs : filesystem) (path : string) (server : RTSPServer E)
  : M unit :=
  match fs (c_str path) with
  | Some bytes => load_lines server (getlines bytes)
  | None => ret tt
  end.

(** *** [main], lines 50 to 186 *)

Definition doEventLoop : M unit :=
  fun s => (Forever, record EventLoop s).

Definition main (fs : filesystem) (argv : list string) : M unit :=
  print ("RTSP Proxy Server" ++ nl) ;;
  rest <- parse_args argv ;;
  rtspServer <- bootstrap ;;
  load fs (hd EmptyString rest) rtspServer ;;
  doEventLoop ;;
  ret tt.

End Program.

Arguments initial {E} w.
Arguments progName {E} s.
Arguments verbosityLevel {E} s.
Arguments tunnelOverHTTPPortNum {E} s.
Arguments rtspServerPortNum {E} s.
Arguments username {E} s.
Arguments password {E} s.
Arguments world {E} s.
Arguments trace {E} s.
Arguments record {E} e s.
Arguments set_verbosityLevel {E} v s.
Arguments set_rtspServerPortNum {E} p s.
Arguments set_progName {E} p s.
Arguments set_world {E} w s.

(** ** Vocabulary of the properties *)

(** An argument that begins with a dash, and the letter after the dash. *)
Definition is_option (a : string) : bool := Ascii.eqb (cchar a 0) "-".
Definition letter (a : string) : ascii := cchar a 1.

Definition is_verbosity (a : string) : bool :=
  (is_option a && (Ascii.eqb (letter a) "v" || Ascii.eqb (letter a) "V"))%bool.

Definition is_port_option (a : string) : bool :=
  (is_option a && Ascii.eqb (letter a) "p")%bool.

(** A token written as a decimal numeral, and its value: one or more
    digits and nothing else. *)
Fixpoint digits_value (acc : Z) (s : string) : option Z :=
  match s with
  | EmptyString => Some acc
  | String c s' =>
      if Scanf.isdigit c
      then digits_value (10 * acc + Scanf.digit_val c) s'
      else None
  end.

Definition numeral (s : string) : option Z :=
  match s with
  | EmptyString => None
  | String _ _ => digits_value 0 s
  end.

(** The operand of [-p] as the option loop takes it: a token that does not
    begin with a dash and that [%hu] converts to a positive port. *)
Definition port_operand (tok : string) : option Z :=
  if is_option tok then None
  else
    match Scanf.sscanf_hu tok with
    | Some v => if 0 <? v then Some v else None
    | None => None
    end.

(** A run of options the command line allows before the path:
    [-v], [-V], and [-p] with an operand. *)
Fixpoint options_ok (fl : list string) : bool :=
  match fl with
  | [] => true
  | opt :: rest =>
      if is_verbosity opt then options_ok rest
      else if is_port_option opt then
        match rest with
        | tok :: rest' =>
            match port_operand tok with
            | Some _ => options_ok rest'
            | None => false
            end
        | [] => false
        end
      else false
  end.

(** The globals after such a run. *)
Fixpoint after_options {E} (fl : list string) (s : state E) : state E :=
  match fl with
  | [] => s
  | opt :: rest =>
      if is_option opt then
        if Ascii.eqb (letter opt) "v"
        then after_options rest (set_verbosityLevel 1 s)
        else if Ascii.eqb (letter opt) "V"
        then after_options rest (set_verbosityLevel 2 s)
        else
          match rest with
          | tok :: rest' =>
              match port_operand tok with
              | Some v => after_options rest' (set_rtspServerPortNum v s)
              | None => s
              end
          | [] => s
          end
      else s
  end.

(** An argument list with nothing that can stand for the path: every token
    begins with a dash or is the operand of a [-p] before it. *)
Fixpoint only_options (args : list string) : bool :=
  match args with
  | [] => true
  | opt :: rest =>
      (is_option opt &&
       if Ascii.eqb (letter opt) "p" then
         match rest with
         | tok :: rest' =>
             if is_option tok then only_options rest else only_options rest'
         | [] => true
         end
       else only_options rest)%bool
  end.

(** The [-p] operand that makes the option loop give up: there is none, it
    begins with a dash, [%hu] converts nothing, or it converts to 0. *)
Definition bad_port_operand (rest : list string) : bool :=
  match rest with
  | [] => true
  | tok :: _ =>
      match port_operand tok with
      | Some _ => false
      | None => true
      end
  end.

(** The session-creation calls of a trace, in order, each with the source
    URL and the published name it was given. *)
Fixpoint session_calls (t : list event) : list (string * string) :=
  match t with
  | [] => []
  | CreateSession url name _ _ _ _ :: t' => (url, name) :: session_calls t'
  | _ :: t' => session_calls t'
  end.

(** The number of sessions registered with the server in a trace. *)
Fixpoint registrations (t : list event) : nat :=
  match t with
  | [] => O
  | AddSession :: t' => S (registrations t')
  | _ :: t' => registrations t'
  end.

(** The ports of the server-creation attempts of a trace, in order. *)
Fixpoint server_attempts (t : list event) : list Z :=
  match t with
  | [] => []
  | CreateServer p :: t' => p :: server_attempts t'
  | _ :: t' => server_attempts t'
  end.

(** What was printed, in order. *)
Fixpoint printed (t : list event) : list item :=
  match t with
  | [] => []
  | Out i :: t' => i :: printed t'
  | _ :: t' => printed t'
  end.

(** The part of a line after its first space; empty when there is none. *)
Fixpoint after_space (line : string) : string :=
  match line with
  | EmptyString => EmptyString
  | String c r => if Ascii.eqb c " " then r else after_space r
  end.

Fixpoint has_space (line : string) : bool :=
  match line with
  | EmptyString => false
  | String c r => (Ascii.eqb c " " || has_space r)%bool
  end.

(** The published name the loader derives from a line. *)
Definition name_of (line : string) : string :=
  if has_space line then after_space line else line.

Definition is_comment (line : string) : bool :=
  match line with
  | String c _ => Ascii.eqb c "#"
  | EmptyString => false
  end.

Definition banner : string := "RTSP Proxy Server" ++ nl.

(** What [main] does once the arguments are checked and [path] is the
    head of the shifted [argv]. *)
Definition serve (E : Engine) (fs : filesystem) (path : string)
  : M E unit :=
  bind E (bootstrap E) (fun rtspServer =>
  bind E (load E fs path rtspServer) (fun _ =>
  bind E (doEventLoop E) (fun _ => ret E tt))).

(** ** An engine to run the program on

    The world is the list of ports that can still be bound and the last
    result message; a server is its port, a session its published name. *)
Definition sim : Engine := {|
  World := list Z * string;
  RTSPServer := Z;
  ServerMediaSession := string;
  RTSPServer_createNew := fun port w =>
    if existsb (Z.eqb port) (fst w)
    then (Some port, w)
    else (None, (fst w, "bind() error"));
  getResultMsg := fun w => snd w;
  ProxyServerMediaSession_createNew := fun _ _ name _ _ _ _ w => (name, w);
  addServerMediaSession := fun _ _ w => w;
  rtspURL := fun port sms _ => "rtsp://127.0.0.1/" ++ sms
|}.

(** The state the examples start from: the globals as initialised, an
    engine on which ports 554 and 8554 can be bound. *)
Definition sim_start : state sim := @initial sim ([554; 8554], EmptyString).

(** The same with no port to bind at all. *)
Definition sim_closed : state sim := @initial sim ([], EmptyString).

(** The last words of a failed start, and the notice of the fall-back. *)
Definition failure_report {E : Engine} (s : state E) : list item :=
  [Text "Failed to create RTSP server: ";
   Text (getResultMsg E (world s)); Text nl].

Definition fallback_notice (p : Z) (msg : string) : list item :=
  [Text "Unable to create a RTSP server with port number ";
   Number p; Text ": "; Text msg; Text nl;
   Text ("Trying instead with the standard port numbers (554)..." ++ nl)].

(** A line [std::string] can hold and [front()] can be asked about: not
    empty, shorter than [npos]. *)
Definition readable (line : string) : bool :=
  (negb (String.eqb line EmptyString)
   && (StdString.size line <? StdString.npos))%bool.

(** The call the loader makes for a line it does not skip. *)
Definition call_of (line : string) : string * string :=
  (c_str line, c_str (name_of line)).

(** ** Vocabulary of the further properties *)

(** What [usage()] prints for the program name [p]. *)
Definition usage_message (p : option string) : list item :=
  [Text "Usage: ";
   match p with Some n => Text n | None => NullText end;
   Text " [-v|-V]";
   Text " [-p <rtspServer-port>]";
   Text " <rtsp_url_definition_file>"].

Definition no_verbosity (ps : list string) : bool :=
  forallb (fun a => negb (is_verbosity a)) ps.

(** The session-creation events of a trace, with all their arguments. *)
Fixpoint creations (t : list event) : list event :=
  match t with
  | [] => []
  | CreateSession u n a b c d :: t' => CreateSession u n a b c d :: creations t'
  | _ :: t' => creations t'
  end.

(** The creation event of a line under the globals of [s]. *)
Definition entry_session {E : Engine} (s : state E) (line : string) : event :=
  CreateSession (c_str line) (c_str (name_of line))
    (username s) (password s) (tunnelOverHTTPPortNum s) (verbosityLevel s).

(** A session created without credentials and without HTTP tunnelling. *)
Definition plain (e : event) : Prop :=
  match e with
  | CreateSession _ _ u p t _ => u = None /\ p = None /\ t = 0
  | _ => True
  end.

(** The globals that no option can set are as initialised, and every
    session so far was created from them. *)
Definition unconfigured {E : Engine} (s : state E) : Prop :=
  username s = None /\ password s = None /\ tunnelOverHTTPPortNum s = 0
  /\ Forall plain (trace s).

Fixpoint no_newline (l : string) : bool :=
  match l with
  | EmptyString => true
  | String c r => (negb (Ascii.eqb c "010") && no_newline r)%bool
  end.

(** The bytes of a file whose lines are [lines], each ended by a newline. *)
Fixpoint join_lines (lines : list string) : string :=
  match lines with
  | [] => EmptyString
  | l :: more => l ++ nl ++ join_lines more
  end.

(** How the option loop can end on [args] from [s]: it has consumed a run
    of well-formed options and stands at the end or at a token without a
    dash, or it has printed the usage message and left with status 1. *)
Definition loop_result {E : Engine} (args : list string) (s : state E)
  : Prop :=
  (exists fl rest,
      args = (fl ++ rest)%list
      /\ options_ok fl = true
      /\ match rest with [] => True | path :: _ => is_option path = false end
      /\ parse_options E args s = (Ret rest, after_options fl s))
  \/ (exists s',
        parse_options E args s = (Exit 1, s')
        /\ trace s' = (trace s ++ map Out (usage_message (progName s)))%list
        /\ world s' = world s).

(** What the loader prints for a registered line. *)
Definition entry_report (url playback : string) : list item :=
  [Text ("RTSP stream, proxying the stream " ++ dquote); Text url;
   Text (dquote ++ nl); Text (tab ++ "Play this stream using the URL: ");
   Text playback; Text nl].

(** Two states with the same globals. *)
Definition same_globals {E : Engine} (s s' : state E) : Prop :=
  progName s' = progName s
  /\ verbosityLevel s' = verbosityLevel s
  /\ tunnelOverHTTPPortNum s' = tunnelOverHTTPPortNum s
  /\ rtspServerPortNum s' = rtspServerPortNum s
  /\ username s' = username s
  /\ password s' = password s.

(** The ways the loader can stop: it never exits and never enters the
    event loop. *)
Definition loader_outcome {A : Type} (o : outcome A) : Prop :=
  match o with
  | Ret _ | Undefined | Throw _ => True
  | Exit _ | Forever => False
  end.

(** The name the second [substr] of the loop gives, when it gives one. *)
Definition substr_after (line : string) : option string :=
  StdString.substr line
    (StdString.size_add (StdString.find line " ") 1) StdString.npos.

(** The state [sim] is left in when port 9999 is asked for and refused and
    the server is then created on 554. *)
Definition sim_after_fallback : state sim :=
  Eval vm_compute in
    snd (bootstrap sim (set_rtspServerPortNum 9999 sim_start)).

(** * Properties *)

(** ** Lists consumed one or two elements at a time *)

Lemma list_pair_ind (A : Type) (P : list A -> Prop) :
  P [] ->
  (forall x, P [x]) ->
  (forall x y l, P l -> P (y :: l) -> P (x :: y :: l)) ->
  forall l, P l.
Proof.
  intros Hnil Hone Hstep l.
  assert (H : P l /\ forall x, P (x :: l)).
  { induction l as [|y l [IHl IHx]].
    - split; [exact Hnil | exact Hone].
    - split; [apply IHx | intro x; apply Hstep; [exact IHl | apply IHx]]. }
  exact (proj1 H).
Qed.

(** ** Traces *)

Lemma session_calls_app (t u : list event) :
  session_calls (t ++ u) = (session_calls t ++ session_calls u)%list.
Proof.
  induction t as [|e t IH]; simpl; [reflexivity|].
  destruct e; simpl; rewrite IH; reflexivity.
Qed.

Lemma registrations_app (t u : list event) :
  registrations (t ++ u) = (registrations t + registrations u)%nat.
Proof.
  induction t as [|e t IH]; simpl; [reflexivity|].
  destruct e; simpl; rewrite IH; reflexivity.
Qed.

Lemma server_attempts_app (t u : list event) :
  server_attempts (t ++ u) = (server_attempts t ++ server_attempts u)%list.
Proof.
  induction t as [|e t IH]; simpl; [reflexivity|].
  destruct e; simpl; rewrite IH; reflexivity.
Qed.

Section OptionLoop.

Variable E : Engine.
Implicit Types (s : state E) (args rest fl : list string).

Lemma usage_exits (A : Type) s : fst (@usage E A s) = Exit 1.
Proof. reflexivity. Qed.

Lemma usage_keeps_port (A : Type) s :
  rtspServerPortNum (snd (@usage E A s)) = rtspServerPortNum s.
Proof. reflexivity. Qed.

(** One turn of the loop, case by case. *)

Lemma parse_options_path opt rest s :
  is_option opt = false ->
  parse_options E (opt :: rest) s = (Ret (opt :: rest), s).
Proof.
  unfold is_option; intros H; simpl; rewrite H; reflexivity.
Qed.

Lemma parse_options_v opt rest s :
  is_option opt = true -> letter opt = "v"%char ->
  parse_options E (opt :: rest) s
  = parse_options E rest (set_verbosityLevel 1 s).
Proof.
  unfold is_option, letter; intros H1 H2; simpl.
  rewrite H1, H2; reflexivity.
Qed.

Lemma parse_options_V opt rest s :
  is_option opt = true -> letter opt = "V"%char ->
  parse_options E (opt :: rest) s
  = parse_options E rest (set_verbosityLevel 2 s).
Proof.
  unfold is_option, letter; intros H1 H2; simpl.
  rewrite H1, H2; reflexivity.
Qed.

Lemma parse_options_p opt tok v rest s :
  is_port_option opt = true -> port_operand tok = Some v ->
  parse_options E (opt :: tok :: rest) s
  = parse_options E rest (set_rtspServerPortNum v s).
Proof.
  unfold is_port_option, port_operand, is_option, letter.
  intros H1 H2. apply andb_true_iff in H1 as [Hd Hp].
  apply Ascii.eqb_eq in Hp.
  simpl. rewrite Hd, Hp. simpl.
  destruct (Ascii.eqb (cchar tok 0) "-"); [discriminate|]. simpl.
  destruct (Scanf.sscanf_hu tok) as [w|]; [|discriminate].
  destruct (0 <? w) eqn:Hw; [|discriminate].
  injection H2 as <-. unfold bind, modify. simpl. reflexivity.
Qed.

Lemma parse_options_p_bad opt rest s :
  is_port_option opt = true -> bad_port_operand rest = true ->
  fst (parse_options E (opt :: rest) s) = Exit 1.
Proof.
  unfold is_port_option, bad_port_operand, port_operand, is_option, letter.
  intros H1 H2. apply andb_true_iff in H1 as [Hd Hp].
  apply Ascii.eqb_eq in Hp.
  simpl. rewrite Hd, Hp. simpl.
  destruct rest as [|tok rest]; [reflexivity|].
  destruct (Ascii.eqb (cchar tok 0) "-"); [reflexivity|]. simpl.
  destruct (Scanf.sscanf_hu tok) as [w|]; [|reflexivity].
  destruct (0 <? w) eqn:Hw; [discriminate|].
  unfold bind, modify. simpl. reflexivity.
Qed.

Lemma parse_options_unknown opt rest s :
  is_option opt = true ->
  letter opt <> "v"%char -> letter opt <> "V"%char ->
  letter opt <> "p"%char ->
  fst (parse_options E (opt :: rest) s) = Exit 1.
Proof.
  unfold is_option, letter; intros H Hv HV Hp; simpl. rewrite H. simpl.
  apply Ascii.eqb_neq in Hv, HV, Hp. rewrite Hv, HV, Hp. reflexivity.
Qed.

Lemma is_verbosity_cases opt :
  is_verbosity opt = true ->
  is_option opt = true /\ (letter opt = "v"%char \/ letter opt = "V"%char).
Proof.
  unfold is_verbosity. intros H. apply andb_true_iff in H as [H1 H2].
  split; [exact H1|].
  apply orb_true_iff in H2 as [H2|H2]; apply Ascii.eqb_eq in H2; auto.
Qed.

Lemma is_port_option_cases opt :
  is_port_option opt = true ->
  is_option opt = true /\ letter opt = "p"%char.
Proof.
  unfold is_port_option. intros H. apply andb_true_iff in H as [H1 H2].
  apply Ascii.eqb_eq in H2. auto.
Qed.

(** A run of well-formed options is consumed whatever follows it. *)
Lemma parse_options_app fl :
  forall tail s,
    options_ok fl = true ->
    parse_options E (fl ++ tail)%list s
    = parse_options E tail (after_options fl s).
Proof.
  induction fl as [| x | x y l IHl IHy] using list_pair_ind;
    intros tail s Hok.
  - reflexivity.
  - simpl in Hok. destruct (is_verbosity x) eqn:Hv.
    + apply is_verbosity_cases in Hv as [Hd [Hl|Hl]]; simpl app.
      * rewrite parse_options_v by assumption.
        simpl. rewrite Hd, Hl. reflexivity.
      * rewrite parse_options_V by assumption.
        simpl. rewrite Hd, Hl. reflexivity.
    + destruct (is_port_option x); discriminate.
  - simpl in Hok. destruct (is_verbosity x) eqn:Hv.
    + apply is_verbosity_cases in Hv as [Hd [Hl|Hl]].
      * change ((x :: y :: l) ++ tail)%list with (x :: ((y :: l) ++ tail))%list.
        rewrite parse_options_v by assumption.
        rewrite IHy by exact Hok.
        simpl. rewrite Hd, Hl. reflexivity.
      * change ((x :: y :: l) ++ tail)%list with (x :: ((y :: l) ++ tail))%list.
        rewrite parse_options_V by assumption.
        rewrite IHy by exact Hok.
        simpl. rewrite Hd, Hl. reflexivity.
    + destruct (is_port_option x) eqn:Hp; [|discriminate].
      destruct (port_operand y) as [v|] eqn:Hy; [|discriminate].
      change ((x :: y :: l) ++ tail)%list with (x :: y :: (l ++ tail))%list.
      rewrite (parse_options_p _ _ v) by assumption.
      rewrite IHl by exact Hok.
      apply is_port_option_cases in Hp as [Hd Hl].
      simpl. rewrite Hd, Hl, Hy. reflexivity.
Qed.

Lemma after_options_trace fl :
  forall s, trace (after_options fl s) = trace s
            /\ world (after_options fl s) = world s
            /\ progName (after_options fl s) = progName s.
Proof.
  induction fl as [| x | x y l IHl IHy] using list_pair_ind; intros s.
  - auto.
  - simpl. destruct (is_option x); auto.
    destruct (Ascii.eqb (letter x) "v"); auto.
    destruct (Ascii.eqb (letter x) "V"); auto.
  - cbn [after_options]. destruct (is_option x); auto.
    destruct (Ascii.eqb (letter x) "v");
      [exact (IHy (set_verbosityLevel 1 s))|].
    destruct (Ascii.eqb (letter x) "V");
      [exact (IHy (set_verbosityLevel 2 s))|].
    destruct (port_operand y) as [v|];
      [exact (IHl (set_rtspServerPortNum v s))|auto].
Qed.

End OptionLoop.

(** ** Decimal numerals under [%hu] *)

Lemma isdigit_plain (c : ascii) :
  Scanf.isdigit c = true ->
  Scanf.isspace c = false /\ Ascii.eqb c "-" = false
  /\ Ascii.eqb c "+" = false.
Proof.
  destruct c as [[] [] [] [] [] [] [] []]; intros H;
    try discriminate H; repeat split; reflexivity.
Qed.

Lemma digits_value_scan (s : string) :
  forall acc n, digits_value acc s = Some n -> Scanf.scan_digits acc s = n.
Proof.
  induction s as [|c s IH]; simpl; intros acc n H.
  - congruence.
  - destruct (Scanf.isdigit c); [apply IH; exact H | discriminate].
Qed.

Lemma numeral_head (tok : string) (n : Z) :
  numeral tok = Some n ->
  exists c r, tok = String c r /\ Scanf.isdigit c = true.
Proof.
  destruct tok as [|c r]; simpl; [discriminate|].
  destruct (Scanf.isdigit c) eqn:Hc; [|discriminate].
  intros _. exists c, r. auto.
Qed.

Lemma numeral_not_option (tok : string) (n : Z) :
  numeral tok = Some n -> is_option tok = false.
Proof.
  intros H. destruct (numeral_head _ _ H) as (c & r & -> & Hc).
  apply isdigit_plain in Hc as (_ & Hm & _). exact Hm.
Qed.

(** A numeral is converted whole: its value goes through [strtoul] and the
    16-bit store. *)
Lemma sscanf_hu_numeral (tok : string) (n : Z) :
  numeral tok = Some n ->
  Scanf.sscanf_hu tok
  = Some (Scanf.to_ushort (Scanf.strtoul_value false n)).
Proof.
  intros H. destruct (numeral_head _ _ H) as (c & r & -> & Hc).
  pose proof (isdigit_plain _ Hc) as (Hs & Hm & Hp).
  unfold Scanf.sscanf_hu. cbn [Scanf.skip_space]. rewrite Hs, Hm, Hp.
  cbn [orb]. rewrite Hc.
  rewrite (digits_value_scan _ 0 n H). reflexivity.
Qed.

Lemma port_operand_numeral (tok : string) (n : Z) :
  numeral tok = Some n ->
  port_operand tok
  = let v := Scanf.to_ushort (Scanf.strtoul_value false n) in
    if 0 <? v then Some v else None.
Proof.
  intros H. unfold port_operand.
  rewrite (numeral_not_option _ _ H), (sscanf_hu_numeral _ _ H).
  reflexivity.
Qed.

Lemma to_ushort_small (n : Z) :
  0 <= n <= 65535 -> Scanf.to_ushort (Scanf.strtoul_value false n) = n.
Proof.
  intros H. unfold Scanf.to_ushort, Scanf.strtoul_value.
  change Scanf.ULONG_MAX with 18446744073709551615.
  change (Scanf.USHRT_MAX + 1) with 65536.
  destruct (18446744073709551615 <? n) eqn:Hb.
  - apply Z.ltb_lt in Hb. lia.
  - apply Z.mod_small. lia.
Qed.

Lemma to_ushort_large (n : Z) :
  65535 < n ->
  Scanf.to_ushort (Scanf.strtoul_value false n)
  = if n <=? Scanf.ULONG_MAX then n mod 65536 else 65535.
Proof.
  intros H. unfold Scanf.to_ushort, Scanf.strtoul_value.
  change Scanf.ULONG_MAX with 18446744073709551615.
  change (Scanf.USHRT_MAX + 1) with 65536.
  destruct (18446744073709551615 <? n) eqn:Hb.
  - apply Z.ltb_lt in Hb.
    destruct (n <=? 18446744073709551615) eqn:Hc.
    + apply Z.leb_le in Hc. lia.
    + reflexivity.
  - apply Z.ltb_ge in Hb.
    destruct (n <=? 18446744073709551615) eqn:Hc.
    + reflexivity.
    + apply Z.leb_gt in Hc. lia.
Qed.

(** Whatever [%hu] stores is a 16-bit value. *)
Lemma sscanf_hu_range (tok : string) (v : Z) :
  Scanf.sscanf_hu tok = Some v -> 0 <= v <= 65535.
Proof.
  unfold Scanf.sscanf_hu.
  match goal with
  | |- match ?x with _ => _ end = _ -> _ => destruct x as [|c r]
  end; [discriminate|].
  destruct (Scanf.isdigit c); [|discriminate].
  intros H. injection H as <-. unfold Scanf.to_ushort.
  change (Scanf.USHRT_MAX + 1) with 65536.
  match goal with
  | |- 0 <= ?x mod 65536 <= 65535 =>
      pose proof (Z.mod_pos_bound x 65536); lia
  end.
Qed.

(** The operands that stop the loop, spelled out. *)
Lemma bad_port_operand_cases (rest : list string) :
  bad_port_operand rest = true <->
  rest = []
  \/ exists tok rest',
      rest = tok :: rest'
      /\ (is_option tok = true
          \/ Scanf.sscanf_hu tok = None
          \/ Scanf.sscanf_hu tok = Some 0).
Proof.
  unfold bad_port_operand, port_operand. split.
  - destruct rest as [|tok rest']; [auto|]. intros H. right.
    exists tok, rest'. split; [reflexivity|].
    destruct (is_option tok); [auto|]. right.
    destruct (Scanf.sscanf_hu tok) as [v|] eqn:Hs; [|auto]. right.
    destruct (0 <? v) eqn:Hv; [discriminate|].
    apply Z.ltb_ge in Hv. apply sscanf_hu_range in Hs.
    f_equal. lia.
  - intros [-> | (tok & rest' & -> & [H | [H | H]])];
      [reflexivity | rewrite H; reflexivity | |].
    + destruct (is_option tok); [reflexivity|]. rewrite H. reflexivity.
    + destruct (is_option tok); [reflexivity|]. rewrite H. reflexivity.
Qed.

Section ArgumentCheck.

Variable E : Engine.
Implicit Types (s : state E) (args rest fl vs extra : list string).

(** With a program name and at least one argument the first test passes
    and the loop runs on [argv[1..]]. *)
Lemma parse_args_run prog a args s :
  parse_args E (prog :: a :: args) s
  = match parse_options E (a :: args) (set_progName (Some prog) s) with
    | (Ret [], s') => (Exit 1, snd (@usage E unit s'))
    | r => r
    end.
Proof.
  unfold parse_args, bind at 1 2, modify.
  replace (Z.of_nat (Datatypes.length (prog :: a :: args)) <? 2)
    with false
    by (symmetry; apply Z.ltb_ge; simpl Datatypes.length; lia).
  unfold ret at 1. unfold bind at 1. cbn [tl hd_error].
  destruct (parse_options E (a :: args) (set_progName (Some prog) s))
    as [[rest| | | |] s']; try reflexivity.
  destruct rest as [|p rest]; [reflexivity|].
  unfold bind.
  replace (Z.of_nat (Datatypes.length (p :: rest)) + 1 <? 2) with false
    by (symmetry; apply Z.ltb_ge; simpl Datatypes.length; lia).
  reflexivity.
Qed.

Lemma parse_args_short argv s :
  (Datatypes.length argv < 2)%nat -> fst (parse_args E argv s) = Exit 1.
Proof.
  intros H. destruct argv as [|prog [|a args]]; [reflexivity..|].
  simpl in H. lia.
Qed.

(** Options alone leave the loop with nothing, or stop it with the usage
    message. *)
Lemma only_options_end args :
  forall s,
    only_options args = true ->
    fst (parse_options E args s) = Exit 1
    \/ exists s', parse_options E args s = (Ret [], s').
Proof.
  induction args as [| x | x y l IHl IHy] using list_pair_ind;
    intros s H.
  - right. exists s. reflexivity.
  - simpl in H. apply andb_true_iff in H as [Hd H].
    destruct (Ascii.eqb (letter x) "p") eqn:Hp.
    { left. apply parse_options_p_bad; [|reflexivity].
      unfold is_port_option. rewrite Hd, Hp. reflexivity. }
    destruct (Ascii.eqb (letter x) "v") eqn:Hv.
    { apply Ascii.eqb_eq in Hv. rewrite parse_options_v by assumption.
      right. eexists. reflexivity. }
    destruct (Ascii.eqb (letter x) "V") eqn:HV.
    { apply Ascii.eqb_eq in HV. rewrite parse_options_V by assumption.
      right. eexists. reflexivity. }
    left. apply parse_options_unknown; [assumption|..];
      apply Ascii.eqb_neq; assumption.
  - cbn [only_options] in H. apply andb_true_iff in H as [Hd H].
    destruct (Ascii.eqb (letter x) "p") eqn:Hp.
    { assert (Hpo : is_port_option x = true)
        by (unfold is_port_option; rewrite Hd, Hp; reflexivity).
      destruct (port_operand y) as [v|] eqn:Hy.
      - rewrite (parse_options_p _ _ _ v) by assumption.
        apply IHl. unfold port_operand in Hy.
        destruct (is_option y); [discriminate | exact H].
      - left. apply parse_options_p_bad; [assumption|].
        simpl. rewrite Hy. reflexivity. }
    destruct (Ascii.eqb (letter x) "v") eqn:Hv.
    { apply Ascii.eqb_eq in Hv. rewrite parse_options_v by assumption.
      apply IHy. exact H. }
    destruct (Ascii.eqb (letter x) "V") eqn:HV.
    { apply Ascii.eqb_eq in HV. rewrite parse_options_V by assumption.
      apply IHy. exact H. }
    left. apply parse_options_unknown; [assumption|..];
      apply Ascii.eqb_neq; assumption.
Qed.

Lemma verbosity_options_ok vs :
  forallb is_verbosity vs = true -> options_ok vs = true.
Proof.
  induction vs as [|x vs IH]; simpl; [reflexivity|].
  intros H. apply andb_true_iff in H as [Hx H]. rewrite Hx. auto.
Qed.

Lemma verbosity_keeps_port vs :
  forall s,
    forallb is_verbosity vs = true ->
    rtspServerPortNum (after_options vs s) = rtspServerPortNum s.
Proof.
  induction vs as [|x vs IH]; intros s H; [reflexivity|].
  simpl in H. apply andb_true_iff in H as [Hx H].
  apply is_verbosity_cases in Hx as [Hd [Hl|Hl]];
    cbn [after_options]; rewrite Hd, Hl; cbn [Ascii.eqb Bool.eqb];
    rewrite IH by exact H; reflexivity.
Qed.

(** The option loop on options, [-p] with its operand, verbosity flags
    and the path. *)
Lemma parse_args_port prog fl opt tok v vs path extra s :
  options_ok fl = true ->
  is_port_option opt = true ->
  port_operand tok = Some v ->
  forallb is_verbosity vs = true ->
  is_option path = false ->
  parse_args E (prog :: fl ++ opt :: tok :: vs ++ path :: extra)%list s
  = (Ret (path :: extra),
     after_options vs
       (set_rtspServerPortNum v
          (after_options fl (set_progName (Some prog) s)))).
Proof.
  intros Hfl Hopt Htok Hvs Hpath.
  assert (Hrun :
    parse_options E (fl ++ opt :: tok :: vs ++ path :: extra)%list
      (set_progName (Some prog) s)
    = (Ret (path :: extra),
       after_options vs
         (set_rtspServerPortNum v
            (after_options fl (set_progName (Some prog) s))))).
  { rewrite parse_options_app by exact Hfl.
    rewrite (parse_options_p _ _ _ v) by assumption.
    rewrite parse_options_app by (apply verbosity_options_ok; exact Hvs).
    apply parse_options_path. exact Hpath. }
  destruct fl as [|x fl]; cbn [app] in *;
    rewrite parse_args_run, Hrun; reflexivity.
Qed.

Lemma parse_args_bad_port prog fl opt rest s :
  options_ok fl = true ->
  is_port_option opt = true ->
  bad_port_operand rest = true ->
  fst (parse_args E (prog :: fl ++ opt :: rest)%list s) = Exit 1.
Proof.
  intros Hfl Hopt Hbad.
  assert (Hrun :
    fst (parse_options E (fl ++ opt :: rest)%list
           (set_progName (Some prog) s)) = Exit 1).
  { rewrite parse_options_app by exact Hfl.
    apply parse_options_p_bad; assumption. }
  destruct fl as [|x fl]; cbn [app] in *; rewrite parse_args_run;
    match goal with
    | |- context [parse_options E ?a ?st] =>
        destruct (parse_options E a st) as [[r| | | |] s'];
        simpl in Hrun; try discriminate Hrun
    end; simpl; exact Hrun.
Qed.

End ArgumentCheck.

Lemma main_serve (E : Engine) (fs : filesystem) (argv rest : list string)
      (s s1 : state E) :
  parse_args E argv (record (Out (Text banner)) s) = (Ret rest, s1) ->
  main E fs argv s = serve E fs (hd EmptyString rest) s1.
Proof.
  intros H. unfold main. unfold bind at 1. unfold print, out, modify.
  unfold bind at 1. fold banner. rewrite H. reflexivity.
Qed.

Lemma main_usage (E : Engine) (fs : filesystem) (argv : list string)
      (s : state E) :
  fst (parse_args E argv (record (Out (Text banner)) s)) = Exit 1 ->
  fst (main E fs argv s) = Exit 1.
Proof.
  intros H. unfold main. unfold bind at 1. unfold print, out, modify.
  unfold bind at 1. fold banner.
  destruct (parse_args E argv (record (Out (Text banner)) s))
    as [[r| | | |] s']; simpl in H; try discriminate H.
  injection H as ->. reflexivity.
Qed.

(** ** The argument check: claims C6 to C10 *)

(** C6 (as amended): when the option loop reaches a [-p] whose operand is
    missing, begins with a dash, has no decimal number at its front for
    [%hu] to convert, or converts to port 0, the argument check ends in
    the usage failure, exit status 1, and returns nothing. *)
Theorem bad_port_operand_is_usage_failure
    (E : Engine) (fs : filesystem) (prog : string) (fl : list string)
    (opt : string) (rest : list string) (s : state E) :
  options_ok fl = true ->
  is_port_option opt = true ->
  bad_port_operand rest = true ->
  fst (parse_args E (prog :: fl ++ opt :: rest)%list s) = Exit 1
  /\ fst (main E fs (prog :: fl ++ opt :: rest)%list s) = Exit 1.
Proof.
  intros Hfl Hopt Hbad. split.
  - apply parse_args_bad_port; assumption.
  - apply main_usage. apply parse_args_bad_port; assumption.
Qed.

Lemma bad_port_operand_is_usage_failure_witness :
  let fs : filesystem := fun _ => None in
  fst (parse_args sim ["proxy"; "-v"; "-p"; "zero"; "streams.txt"] sim_start)
  = Exit 1
  /\ fst (main sim fs ["proxy"; "-v"; "-p"; "zero"; "streams.txt"] sim_start)
     = Exit 1.
Proof.
  intros fs.
  apply (bad_port_operand_is_usage_failure sim fs "proxy" ["-v"] "-p"
           ["zero"; "streams.txt"] sim_start); reflexivity.
Defined.

(** C6 as stated fails: the token [80abc] after [-p] is not a numeral, yet
    the argument check succeeds, with port 80. *)
Lemma trailing_garbage_port_accepted :
  numeral "80abc" = None
  /\ fst (parse_args sim ["proxy"; "-p"; "80abc"; "streams.txt"] sim_start)
     = Ret ["streams.txt"]
  /\ rtspServerPortNum
       (snd (parse_args sim ["proxy"; "-p"; "80abc"; "streams.txt"]
               sim_start)) = 80
  /\ fst (parse_args sim ["proxy"; "-p"; "80abc"; "streams.txt"] sim_start)
     <> Exit 1.
Proof.
  repeat split; try reflexivity. discriminate.
Qed.

(** C7: on an argument vector of well-formed options, [-p] followed by the
    numeral of [n] with [0 < n <= 65535], verbosity flags and the path, the
    argument check succeeds and leaves [n] in [rtspServerPortNum]. *)
Theorem port_option_sets_port
    (E : Engine) (prog : string) (fl : list string) (opt tok : string)
    (n : Z) (vs : list string) (path : string) (extra : list string)
    (s : state E) :
  options_ok fl = true ->
  is_port_option opt = true ->
  numeral tok = Some n ->
  0 < n <= 65535 ->
  forallb is_verbosity vs = true ->
  is_option path = false ->
  fst (parse_args E (prog :: fl ++ opt :: tok :: vs ++ path :: extra)%list s)
  = Ret (path :: extra)
  /\ rtspServerPortNum
       (snd (parse_args E
               (prog :: fl ++ opt :: tok :: vs ++ path :: extra)%list s))
     = n.
Proof.
  intros Hfl Hopt Htok Hn Hvs Hpath.
  assert (Hport : port_operand tok = Some n).
  { rewrite (port_operand_numeral _ _ Htok). cbv zeta.
    rewrite to_ushort_small by lia.
    destruct (0 <? n) eqn:Hb; [reflexivity|].
    apply Z.ltb_ge in Hb. lia. }
  rewrite (parse_args_port E prog fl opt tok n vs path extra s)
    by assumption.
  split; [reflexivity|]. cbn [snd].
  rewrite verbosity_keeps_port by exact Hvs. reflexivity.
Qed.

Lemma port_option_sets_port_witness :
  fst (parse_args sim ["proxy"; "-v"; "-p"; "8554"; "-V"; "streams.txt"]
         sim_start)
  = Ret ["streams.txt"]
  /\ rtspServerPortNum
       (snd (parse_args sim
               ["proxy"; "-v"; "-p"; "8554"; "-V"; "streams.txt"]
               sim_start))
     = 8554.
Proof.
  apply (port_option_sets_port sim "proxy" ["-v"] "-p" "8554" 8554 ["-V"]
           "streams.txt" [] sim_start); try reflexivity. lia.
Defined.

Lemma parse_args_only_options (E : Engine) (argv : list string)
      (s : state E) :
  only_options (tl argv) = true ->
  fst (parse_args E argv s) = Exit 1.
Proof.
  intros H. destruct argv as [|prog [|a args]];
    try (apply parse_args_short; simpl; lia).
  rewrite parse_args_run. cbn [tl] in H.
  destruct (only_options_end E (a :: args) (set_progName (Some prog) s) H)
    as [Hx | [s' Hr]].
  - destruct (parse_options E (a :: args) (set_progName (Some prog) s))
      as [[[|r rs]| | | |] s']; simpl in Hx; try discriminate Hx.
    injection Hx as ->. reflexivity.
  - rewrite Hr. reflexivity.
Qed.

(** C8: an argument vector with no token for the path (no arguments at
    all, or options and their operands only) ends the argument check in
    the usage failure; nothing is returned and the program exits with
    status 1. *)
Theorem missing_path_is_usage_failure
    (E : Engine) (fs : filesystem) (argv : list string) (s : state E) :
  only_options (tl argv) = true ->
  fst (parse_args E argv s) = Exit 1
  /\ fst (main E fs argv s) = Exit 1.
Proof.
  intros H. split.
  - apply parse_args_only_options. exact H.
  - apply main_usage. apply parse_args_only_options. exact H.
Qed.

Lemma missing_path_is_usage_failure_witness :
  let fs : filesystem := fun _ => None in
  (fst (parse_args sim ["proxy"; "-V"; "-p"; "8554"] sim_start) = Exit 1
   /\ fst (main sim fs ["proxy"; "-V"; "-p"; "8554"] sim_start) = Exit 1)
  /\ (fst (parse_args sim [] sim_start) = Exit 1
      /\ fst (main sim fs [] sim_start) = Exit 1).
Proof.
  intros fs. split.
  - apply (missing_path_is_usage_failure sim fs
             ["proxy"; "-V"; "-p"; "8554"] sim_start). reflexivity.
  - apply (missing_path_is_usage_failure sim fs [] sim_start). reflexivity.
Defined.

Lemma parse_args_path (E : Engine) (prog : string) (fl : list string)
      (path : string) (extra : list string) (s : state E) :
  options_ok fl = true ->
  is_option path = false ->
  parse_args E (prog :: fl ++ path :: extra)%list s
  = (Ret (path :: extra), after_options fl (set_progName (Some prog) s)).
Proof.
  intros Hfl Hpath.
  assert (Hrun :
    parse_options E (fl ++ path :: extra)%list (set_progName (Some prog) s)
    = (Ret (path :: extra), after_options fl (set_progName (Some prog) s))).
  { rewrite parse_options_app by exact Hfl.
    apply parse_options_path. exact Hpath. }
  destruct fl as [|x fl]; cbn [app] in *;
    rewrite parse_args_run, Hrun; reflexivity.
Qed.

(** C9: when the options are followed by a token that does not begin with
    a dash, the argument check succeeds whatever comes after that token;
    the token is the path of the file that is opened, and the arguments
    after it change nothing in the run. *)
Theorem extra_arguments_are_ignored
    (E : Engine) (fs : filesystem) (prog : string) (fl : list string)
    (path : string) (extra : list string) (s : state E) :
  options_ok fl = true ->
  is_option path = false ->
  fst (parse_args E (prog :: fl ++ path :: extra)%list s)
  = Ret (path :: extra)
  /\ main E fs (prog :: fl ++ path :: extra)%list s
     = serve E fs path
         (after_options fl
            (set_progName (Some prog) (record (Out (Text banner)) s)))
  /\ main E fs (prog :: fl ++ path :: extra)%list s
     = main E fs (prog :: fl ++ [path])%list s.
Proof.
  intros Hfl Hpath.
  pose proof (parse_args_path E prog fl path) as Hp.
  split; [rewrite Hp by assumption; reflexivity|].
  split.
  - rewrite (main_serve E fs _ (path :: extra) s _
               (Hp extra _ Hfl Hpath)).
    reflexivity.
  - rewrite (main_serve E fs _ (path :: extra) s _
               (Hp extra _ Hfl Hpath)).
    rewrite (main_serve E fs _ [path] s _ (Hp [] _ Hfl Hpath)).
    reflexivity.
Qed.

Lemma extra_arguments_are_ignored_witness :
  let fs : filesystem := fun _ => None in
  fst (parse_args sim ["proxy"; "-v"; "streams.txt"; "more.txt"; "-p"]
         sim_start)
  = Ret ["streams.txt"; "more.txt"; "-p"]
  /\ main sim fs ["proxy"; "-v"; "streams.txt"; "more.txt"; "-p"] sim_start
     = serve sim fs "streams.txt"
         (after_options ["-v"]
            (set_progName (Some "proxy")
               (record (Out (Text banner)) sim_start)))
  /\ main sim fs ["proxy"; "-v"; "streams.txt"; "more.txt"; "-p"] sim_start
     = main sim fs ["proxy"; "-v"; "streams.txt"] sim_start.
Proof.
  intros fs.
  apply (extra_arguments_are_ignored sim fs "proxy" ["-v"] "streams.txt"
           ["more.txt"; "-p"] sim_start); reflexivity.
Defined.

(** C10 (as amended): [-p] followed by the numeral of [n > 65535] is not
    refused for its size.  While [n] fits [unsigned long] the port is
    [n mod 65536]; above that the conversion saturates and the port is
    65535.  The argument check succeeds with that port when it is
    positive and ends in the usage failure when it is 0. *)
Theorem port_option_wraps
    (E : Engine) (prog : string) (fl : list string) (opt tok : string)
    (n : Z) (vs : list string) (path : string) (extra : list string)
    (s : state E) :
  options_ok fl = true ->
  is_port_option opt = true ->
  numeral tok = Some n ->
  65535 < n ->
  forallb is_verbosity vs = true ->
  is_option path = false ->
  let v := if n <=? Scanf.ULONG_MAX then n mod 65536 else 65535 in
  let r :=
    parse_args E (prog :: fl ++ opt :: tok :: vs ++ path :: extra)%list s in
  if v =? 0 then fst r = Exit 1
  else fst r = Ret (path :: extra) /\ rtspServerPortNum (snd r) = v.
Proof.
  intros Hfl Hopt Htok Hn Hvs Hpath v r.
  assert (Hv : 0 <= v).
  { subst v. destruct (n <=? Scanf.ULONG_MAX); [|lia].
    apply Z.mod_pos_bound. lia. }
  pose proof (port_operand_numeral _ _ Htok) as Hport. cbv zeta in Hport.
  rewrite (to_ushort_large _ Hn) in Hport. fold v in Hport.
  destruct (v =? 0) eqn:Hz.
  - apply Z.eqb_eq in Hz. rewrite Hz in Hport. simpl in Hport.
    subst r. apply parse_args_bad_port; try assumption.
    simpl. rewrite Hport. reflexivity.
  - apply Z.eqb_neq in Hz.
    replace (0 <? v) with true in Hport
      by (symmetry; apply Z.ltb_lt; lia).
    subst r.
    rewrite (parse_args_port E prog fl opt tok v vs path extra s)
      by assumption.
    split; [reflexivity|]. cbn [snd].
    rewrite verbosity_keeps_port by exact Hvs. reflexivity.
Qed.

Lemma port_option_wraps_witness :
  fst (parse_args sim ["proxy"; "-p"; "74090"; "streams.txt"] sim_start)
  = Ret ["streams.txt"]
  /\ rtspServerPortNum
       (snd (parse_args sim ["proxy"; "-p"; "74090"; "streams.txt"]
               sim_start)) = 8554.
Proof.
  apply (port_option_wraps sim "proxy" [] "-p" "74090" 74090 []
           "streams.txt" [] sim_start); try reflexivity.
Defined.

(** C10 as stated fails above [unsigned long]: 2^64 is 0 modulo 65536, so
    the claim has a usage failure, but the conversion saturates and the
    argument check succeeds with port 65535. *)
Lemma huge_port_saturates :
  numeral "18446744073709551616" = Some 18446744073709551616
  /\ 65535 < 18446744073709551616
  /\ 18446744073709551616 mod 65536 = 0
  /\ fst (parse_args sim
            ["proxy"; "-p"; "18446744073709551616"; "streams.txt"]
            sim_start)
     = Ret ["streams.txt"]
  /\ rtspServerPortNum
       (snd (parse_args sim
               ["proxy"; "-p"; "18446744073709551616"; "streams.txt"]
               sim_start)) = 65535.
Proof.
  repeat split; reflexivity.
Qed.

(** ** The RTSP server: claim C4 *)

Section Bootstrap.

Variable E : Engine.
Implicit Types (s : state E).

(** The first attempt succeeds. *)
Lemma bootstrap_first s server w1 :
  RTSPServer_createNew E (rtspServerPortNum s) (world s)
  = (Some server, w1) ->
  bootstrap E s
  = (Ret server,
     record (CreateServer (rtspServerPortNum s)) (set_world w1 s)).
Proof.
  intros H. unfold bootstrap, bind, gets, createRTSPServer.
  rewrite H. reflexivity.
Qed.

(** The configured port is 554 and it fails. *)
Lemma bootstrap_default_fails s w1 :
  RTSPServer_createNew E (rtspServerPortNum s) (world s) = (None, w1) ->
  rtspServerPortNum s = 554 ->
  exists s',
    bootstrap E s = (Exit 1, s')
    /\ world s' = w1
    /\ trace s'
       = (trace s
            ++ CreateServer 554 :: map Out (failure_report s'))%list.
Proof.
  intros H Hp. unfold bootstrap, bind, gets, createRTSPServer.
  rewrite H, Hp. cbn. eexists. split; [reflexivity|].
  split; [reflexivity|]. cbn. rewrite <- !app_assoc. reflexivity.
Qed.

(** Another port fails and 554 succeeds. *)
Lemma bootstrap_fallback_succeeds s w1 server w2 :
  RTSPServer_createNew E (rtspServerPortNum s) (world s) = (None, w1) ->
  rtspServerPortNum s <> 554 ->
  RTSPServer_createNew E 554 w1 = (Some server, w2) ->
  exists s',
    bootstrap E s = (Ret server, s')
    /\ world s' = w2
    /\ rtspServerPortNum s' = 554
    /\ trace s'
       = (trace s
            ++ CreateServer (rtspServerPortNum s)
            :: map Out (fallback_notice (rtspServerPortNum s)
                          (getResultMsg E w1))
            ++ [CreateServer 554])%list.
Proof.
  intros H Hp H2. apply Z.eqb_neq in Hp.
  unfold bootstrap, bind, gets, createRTSPServer.
  rewrite H. cbn. rewrite Hp. cbn. rewrite H2. cbn.
  eexists. repeat (split; [reflexivity|]).
  cbn. rewrite <- !app_assoc. reflexivity.
Qed.

(** Another port fails and so does 554. *)
Lemma bootstrap_fallback_fails s w1 w2 :
  RTSPServer_createNew E (rtspServerPortNum s) (world s) = (None, w1) ->
  rtspServerPortNum s <> 554 ->
  RTSPServer_createNew E 554 w1 = (None, w2) ->
  exists s',
    bootstrap E s = (Exit 1, s')
    /\ world s' = w2
    /\ trace s'
       = (trace s
            ++ CreateServer (rtspServerPortNum s)
            :: map Out (fallback_notice (rtspServerPortNum s)
                          (getResultMsg E w1))
            ++ CreateServer 554 :: map Out (failure_report s'))%list.
Proof.
  intros H Hp H2. apply Z.eqb_neq in Hp.
  unfold bootstrap, bind, gets, createRTSPServer.
  rewrite H. cbn. rewrite Hp. cbn. rewrite H2. cbn.
  eexists. repeat (split; [reflexivity|]).
  cbn. rewrite <- !app_assoc. reflexivity.
Qed.

End Bootstrap.

Lemma server_attempts_out (l : list item) :
  server_attempts (map Out l) = [].
Proof. induction l; simpl; auto. Qed.

Lemma printed_app (t u : list event) :
  printed (t ++ u) = (printed t ++ printed u)%list.
Proof.
  induction t as [|e t IH]; simpl; [reflexivity|].
  destruct e; simpl; rewrite IH; reflexivity.
Qed.

Lemma printed_out (l : list item) : printed (map Out l) = l.
Proof. induction l as [|i l IH]; simpl; [|rewrite IH]; reflexivity. Qed.

(** C4: the first attempt is on the configured port; there is a second
    attempt, on 554, exactly when the first failed and the configured port
    is not 554; there is never a third.  When no attempt gives a server the
    program prints the failure with the engine's result message and exits
    with status 1; when one does, that server is returned. *)
Theorem bootstrap_fallback_policy (E : Engine) (s : state E) :
  let p := rtspServerPortNum s in
  let first := RTSPServer_createNew E p (world s) in
  let second := RTSPServer_createNew E 554 (snd first) in
  let r := bootstrap E s in
  exists evs : list event,
    trace (snd r) = (trace s ++ evs)%list
    /\ hd_error (server_attempts evs) = Some p
    /\ (server_attempts evs = [p; 554] <-> fst first = None /\ p <> 554)
    /\ (server_attempts evs = [p] \/ server_attempts evs = [p; 554])
    /\ (fst first = None /\ (p <> 554 -> fst second = None) ->
        fst r = Exit 1
        /\ exists before,
            printed evs = (before ++ failure_report (snd r))%list)
    /\ (forall server, fst first = Some server -> fst r = Ret server)
    /\ (forall server,
          fst first = None -> p <> 554 -> fst second = Some server ->
          fst r = Ret server).
Proof.
  intros p first second r. subst p first second r.
  destruct (RTSPServer_createNew E (rtspServerPortNum s) (world s))
    as [[server|] w1] eqn:H1.
  - rewrite (bootstrap_first E s server w1 H1). cbn [fst snd].
    exists [CreateServer (rtspServerPortNum s)].
    split; [reflexivity|]. split; [reflexivity|].
    split; [split; [discriminate | intros [H _]; discriminate H]|].
    split; [left; reflexivity|].
    split; [intros [H _]; discriminate H|].
    split; [intros sv H; congruence | intros sv H; discriminate H].
  - destruct (Z.eq_dec (rtspServerPortNum s) 554) as [Hp|Hp].
    + destruct (bootstrap_default_fails E s w1 H1 Hp)
        as (s' & Hb & Hw & Ht).
      rewrite Hb. cbn [fst snd].
      exists (CreateServer 554 :: map Out (failure_report s')).
      split; [exact Ht|]. cbn [server_attempts].
      rewrite server_attempts_out, Hp.
      split; [reflexivity|].
      split; [split; [discriminate | intros [_ H]; congruence]|].
      split; [left; reflexivity|].
      split.
      { intros _. split; [reflexivity|]. exists [].
        cbn [printed]. rewrite printed_out. reflexivity. }
      split; [intros sv H; discriminate H | intros sv _ H; congruence].
    + cbn [snd].
      destruct (RTSPServer_createNew E 554 w1) as [[server|] w2] eqn:H2.
      * destruct (bootstrap_fallback_succeeds E s w1 server w2 H1 Hp H2)
          as (s' & Hb & Hw & Hport & Ht).
        rewrite Hb. cbn [fst snd].
        eexists. split; [exact Ht|]. cbn [server_attempts].
        rewrite server_attempts_app, server_attempts_out. cbn.
        split; [reflexivity|].
        split; [split; [intros _; split; [reflexivity | exact Hp]
                       | reflexivity]|].
        split; [right; reflexivity|].
        split; [intros [_ H]; specialize (H Hp); discriminate H|].
        split; [intros sv H; discriminate H|].
        intros sv _ _ H. congruence.
      * destruct (bootstrap_fallback_fails E s w1 w2 H1 Hp H2)
          as (s' & Hb & Hw & Ht).
        rewrite Hb. cbn [fst snd].
        eexists. split; [exact Ht|]. cbn [server_attempts].
        rewrite server_attempts_app, server_attempts_out. cbn [app].
        cbn [server_attempts]. rewrite server_attempts_out.
        split; [reflexivity|].
        split; [split; [intros _; split; [reflexivity | exact Hp]
                       | reflexivity]|].
        split; [right; reflexivity|].
        split.
        { intros _. split; [reflexivity|].
          exists (fallback_notice (rtspServerPortNum s)
                    (getResultMsg E w1)).
          cbn [printed]. rewrite printed_app, printed_out.
          cbn [printed]. rewrite printed_out. reflexivity. }
        split; [intros sv H; discriminate H|].
        intros sv _ _ H. discriminate H.
Qed.

(** The two scenarios of the specification, on [sim]: port 9999 cannot be
    bound and 554 can; port 554 is asked for and cannot be bound. *)
Example fallback_to_554 :
  let r := bootstrap sim (set_rtspServerPortNum 9999 sim_start) in
  fst r = Ret 554
  /\ server_attempts (trace (snd r)) = [9999; 554]
  /\ rtspServerPortNum (snd r) = 554.
Proof. repeat split. Qed.

Example default_port_refused :
  let r := bootstrap sim sim_closed in
  fst r = Exit 1
  /\ server_attempts (trace (snd r)) = [554]
  /\ printed (trace (snd r))
     = [Text "Failed to create RTSP server: "; Text "bind() error"; Text nl].
Proof. repeat split. Qed.

(** ** [std::string] on a line *)

Lemma take_all (s : string) (n : nat) :
  (String.length s <= n)%nat -> StdString.take n s = s.
Proof.
  revert n. induction s as [|c s IH]; intros n H.
  - destruct n; reflexivity.
  - destruct n as [|n]; simpl in H; [lia|].
    simpl. rewrite IH by lia. reflexivity.
Qed.

Lemma length_drop (s : string) (n : nat) :
  String.length (StdString.drop n s) = (String.length s - n)%nat.
Proof.
  revert s. induction n as [|n IH]; intros s.
  - simpl. lia.
  - destruct s as [|c s]; simpl; [reflexivity | apply IH].
Qed.

Lemma find_from_none (s : string) :
  forall i, has_space s = false ->
            StdString.find_from " " i s = StdString.npos.
Proof.
  induction s as [|c s IH]; intros i H; simpl in *; [reflexivity|].
  apply orb_false_iff in H as [Hc Hs]. rewrite Hc. apply IH. exact Hs.
Qed.

Lemma find_from_some (s : string) :
  forall i, has_space s = true ->
    exists k : nat,
      StdString.find_from " " i s = i + Z.of_nat k
      /\ (k < String.length s)%nat
      /\ StdString.drop (S k) s = after_space s.
Proof.
  induction s as [|c s IH]; intros i H; simpl in *; [discriminate|].
  destruct (Ascii.eqb c " ") eqn:Hc.
  - exists O. repeat split; [lia | lia].
  - simpl in H. destruct (IH (i + 1) H) as (k & Hf & Hk & Hd).
    exists (S k). repeat split; [lia | lia | exact Hd].
Qed.

(** The second [substr] of the loop: what is after the first space, and the
    whole line when [find] gave [npos] and [pos + 1] wrapped to 0. *)
Lemma substr_name (line : string) :
  StdString.size line < StdString.npos ->
  StdString.substr line
    (StdString.size_add (StdString.find line " ") 1) StdString.npos
  = Some (name_of line).
Proof.
  unfold StdString.size, name_of, StdString.find. intros Hlen.
  destruct (has_space line) eqn:Hs.
  - destruct (find_from_some line 0 Hs) as (k & Hf & Hk & Hd).
    rewrite Hf. unfold StdString.size_add, StdString.substr, StdString.size.
    assert (Hn : StdString.npos = StdString.SIZE_MOD - 1) by reflexivity.
    rewrite Z.mod_small by lia.
    replace (Z.of_nat (String.length line) <? 0 + Z.of_nat k + 1) with false
      by (symmetry; apply Z.ltb_ge; lia).
    replace (Z.to_nat (0 + Z.of_nat k + 1)) with (S k) by lia.
    rewrite Hd. f_equal. apply take_all.
    rewrite <- Hd, length_drop. lia.
  - rewrite (find_from_none line 0 Hs).
    change (StdString.size_add StdString.npos 1) with 0.
    unfold StdString.substr, StdString.size.
    replace (Z.of_nat (String.length line) <? 0) with false
      by (symmetry; apply Z.ltb_ge; lia).
    change (Z.to_nat 0) with O. cbn [StdString.drop].
    f_equal. apply take_all. lia.
Qed.

Lemma substr_url (line : string) (pos : Z) :
  exists url, StdString.substr line 0 pos = Some url.
Proof.
  unfold StdString.substr, StdString.size.
  replace (Z.of_nat (String.length line) <? 0) with false
    by (symmetry; apply Z.ltb_ge; lia).
  eexists. reflexivity.
Qed.

(** ** The definition file: claims C1, C2, C3 and C5 *)

Section Loader.

Variable E : Engine.
Implicit Types (s : state E) (server : RTSPServer E) (line : string).

Lemma load_line_comment server line s :
  is_comment line = true -> load_line E server line s = (Ret tt, s).
Proof.
  destruct line as [|c r]; simpl; [discriminate|]. intros H.
  unfold load_line, bind. simpl. rewrite H. reflexivity.
Qed.

Lemma load_line_empty server s :
  load_line E server EmptyString s = (Undefined, s).
Proof. reflexivity. Qed.

(** A line that is not skipped makes one call. *)
Lemma load_line_entry server line s :
  readable line = true ->
  is_comment line = false ->
  exists s',
    load_line E server line s = (Ret tt, s')
    /\ session_calls (trace s')
       = (session_calls (trace s) ++ [call_of line])%list.
Proof.
  unfold readable. intros Hr Hc.
  apply andb_true_iff in Hr as [Hne Hlen]. apply Z.ltb_lt in Hlen.
  destruct line as [|c r]; [discriminate|]. simpl in Hc.
  destruct (substr_url (String c r) (StdString.find (String c r) " "))
    as [url Hurl].
  pose proof (substr_name (String c r) Hlen) as Hname.
  unfold load_line, bind. cbn [StdString.front require ret].
  rewrite Hc. cbn [String.eqb]. rewrite Hurl, Hname.
  cbn [or_throw ret]. eexists. split; [reflexivity|].
  cbn. rewrite !session_calls_app. cbn.
  rewrite !app_nil_r. reflexivity.
Qed.

(** On a file with no blank line the calls are those of the lines that
    are not comments, in the order of the file. *)
Lemma load_lines_calls server (lines : list string) :
  forall s,
    forallb readable lines = true ->
    exists s',
      load_lines E server lines s = (Ret tt, s')
      /\ session_calls (trace s')
         = (session_calls (trace s)
              ++ map call_of
                   (filter (fun l => negb (is_comment l)) lines))%list.
Proof.
  induction lines as [|line lines IH]; intros s H.
  - exists s. split; [reflexivity|]. simpl. rewrite app_nil_r. reflexivity.
  - simpl in H. apply andb_true_iff in H as [Hr H].
    cbn [load_lines filter]. unfold bind.
    destruct (is_comment line) eqn:Hc.
    + rewrite load_line_comment by exact Hc. cbn [negb]. apply IH, H.
    + destruct (load_line_entry server line s Hr Hc) as (s1 & H1 & C1).
      rewrite H1. destruct (IH s1 H) as (s' & H2 & C2).
      exists s'. split; [exact H2|].
      rewrite C2, C1. cbn [negb map]. rewrite <- app_assoc. reflexivity.
Qed.

Lemma load_lines_comments server (lines : list string) :
  forall s,
    forallb is_comment lines = true ->
    load_lines E server lines s = (Ret tt, s).
Proof.
  induction lines as [|line lines IH]; intros s H; [reflexivity|].
  simpl in H. apply andb_true_iff in H as [Hc H].
  cbn [load_lines]. unfold bind.
  rewrite load_line_comment by exact Hc. apply IH, H.
Qed.

End Loader.

(** C1, on the line of the specification's example: the loader makes one
    call for the line [rtsp://cam1.example.com/stream mycam] and gives it
    the published name [mycam], but the source URL it passes is the whole
    line, published name included, not the part before the space. *)
Theorem example_line_passes_whole_line_as_url
    (E : Engine) (server : RTSPServer E) (s : state E) :
  let bytes := "rtsp://cam1.example.com/stream mycam" ++ nl in
  let r := load_lines E server (getlines bytes) s in
  fst r = Ret tt
  /\ session_calls (trace (snd r))
     = (session_calls (trace s)
          ++ [("rtsp://cam1.example.com/stream mycam", "mycam")])%list
  /\ StdString.substr "rtsp://cam1.example.com/stream mycam" 0
       (StdString.find "rtsp://cam1.example.com/stream mycam" " ")
     = Some "rtsp://cam1.example.com/stream".
Proof.
  intros bytes r. subst bytes r.
  change (getlines ("rtsp://cam1.example.com/stream mycam" ++ nl))
    with ["rtsp://cam1.example.com/stream mycam"].
  destruct (load_lines_calls E server
              ["rtsp://cam1.example.com/stream mycam"] s eq_refl)
    as (s' & H & C).
  rewrite H. cbn [fst snd]. split; [reflexivity|].
  split; [exact C | reflexivity].
Qed.

(** A line that is not skipped is also registered, once. *)
Lemma load_line_entry_registers (E : Engine) (server : RTSPServer E)
      (line : string) (s : state E) :
  readable line = true ->
  is_comment line = false ->
  exists s',
    load_line E server line s = (Ret tt, s')
    /\ session_calls (trace s')
       = (session_calls (trace s) ++ [call_of line])%list
    /\ registrations (trace s') = S (registrations (trace s)).
Proof.
  unfold readable. intros Hr Hc.
  apply andb_true_iff in Hr as [Hne Hlen]. apply Z.ltb_lt in Hlen.
  destruct line as [|c r]; [discriminate|]. simpl in Hc.
  destruct (substr_url (String c r) (StdString.find (String c r) " "))
    as [url Hurl].
  pose proof (substr_name (String c r) Hlen) as Hname.
  unfold load_line, bind. cbn [StdString.front require ret].
  rewrite Hc. cbn [String.eqb]. rewrite Hurl, Hname.
  cbn [or_throw ret]. eexists. split; [reflexivity|].
  cbn. rewrite !session_calls_app, !registrations_app. cbn.
  rewrite !app_nil_r. split; [reflexivity | lia].
Qed.

(** C2 (as amended): a line that is not empty, does not begin with [#] and
    has no space is not refused; the loader creates one session for it and
    registers it, and the source URL and the published name it passes are
    both the whole line. *)
Theorem line_without_space_is_its_own_name
    (E : Engine) (server : RTSPServer E) (line : string) (s : state E) :
  readable line = true ->
  is_comment line = false ->
  has_space line = false ->
  fst (load_line E server line s) = Ret tt
  /\ session_calls (trace (snd (load_line E server line s)))
     = (session_calls (trace s) ++ [(c_str line, c_str line)])%list
  /\ registrations (trace (snd (load_line E server line s)))
     = S (registrations (trace s)).
Proof.
  intros Hr Hc Hs.
  destruct (load_line_entry_registers E server line s Hr Hc)
    as (s' & H & C & R).
  rewrite H. cbn [fst snd]. split; [reflexivity|].
  split; [|exact R].
  rewrite C. unfold call_of, name_of. rewrite Hs. reflexivity.
Qed.

Lemma line_without_space_is_its_own_name_witness :
  fst (load_line sim 554 "rtsp://cam2.example.com/stream" sim_start)
  = Ret tt
  /\ session_calls
       (trace (snd (load_line sim 554 "rtsp://cam2.example.com/stream"
                      sim_start)))
     = [("rtsp://cam2.example.com/stream",
         "rtsp://cam2.example.com/stream")]
  /\ registrations
       (trace (snd (load_line sim 554 "rtsp://cam2.example.com/stream"
                      sim_start)))
     = 1%nat.
Proof.
  apply (line_without_space_is_its_own_name sim 554
           "rtsp://cam2.example.com/stream" sim_start); reflexivity.
Defined.

(** C2 as stated fails: the line [rtsp://cam2.example.com/stream] has no
    space, and the published name passed for it is not the empty string. *)
Lemma name_of_line_without_space_is_not_empty :
  has_space "rtsp://cam2.example.com/stream" = false
  /\ session_calls
       (trace (snd (load_line sim 554 "rtsp://cam2.example.com/stream"
                      sim_start)))
     <> [("rtsp://cam2.example.com/stream", EmptyString)].
Proof.
  split; [reflexivity | discriminate].
Qed.

(** C3, on a file of one comment and one blank line: the comment is
    skipped, and on the blank line [front()] is called on an empty string
    before the test for emptiness is reached; the loader does not return
    normally. *)
Theorem blank_line_reaches_front_of_empty_string
    (E : Engine) (server : RTSPServer E) (s : state E) :
  let bytes := "# cameras" ++ nl ++ nl in
  getlines bytes = ["# cameras"; EmptyString]
  /\ StdString.front EmptyString = None
  /\ load_lines E server (getlines bytes) s = (Undefined, s).
Proof.
  repeat split.
Qed.

Lemma session_calls_out (l : list item) :
  session_calls (map Out l) = [].
Proof. induction l; simpl; auto. Qed.

(** The argument check prints only when it fails. *)
Lemma parse_options_ret_trace (E : Engine) (args : list string) :
  forall (s s' : state E) (r : list string),
    parse_options E args s = (Ret r, s') -> trace s' = trace s.
Proof.
  assert (Hbad : forall (x : string) (rest r : list string) (s s' : state E),
             fst (parse_options E (x :: rest) s) = Exit 1 ->
             parse_options E (x :: rest) s = (Ret r, s') -> False).
  { intros x rest r s s' Hx H. rewrite H in Hx. discriminate Hx. }
  assert (Hone : forall (x : string) (rest : list string),
             (forall (s s' : state E) r,
                parse_options E rest s = (Ret r, s') -> trace s' = trace s) ->
             (forall y l, rest = y :: l ->
                forall (s s' : state E) r,
                parse_options E l s = (Ret r, s') -> trace s' = trace s) ->
             forall (s s' : state E) r,
               parse_options E (x :: rest) s = (Ret r, s') ->
               trace s' = trace s).
  { intros x rest IHrest IHl s s' r H.
    destruct (is_option x) eqn:Hd.
    2:{ rewrite parse_options_path in H by exact Hd.
        injection H as _ <-. reflexivity. }
    destruct (Ascii.eqb (letter x) "v") eqn:Hv.
    { apply Ascii.eqb_eq in Hv. rewrite parse_options_v in H by assumption.
      apply IHrest in H. exact H. }
    destruct (Ascii.eqb (letter x) "V") eqn:HV.
    { apply Ascii.eqb_eq in HV. rewrite parse_options_V in H by assumption.
      apply IHrest in H. exact H. }
    destruct (Ascii.eqb (letter x) "p") eqn:Hp.
    2:{ exfalso. apply (Hbad x rest r s s'); [|exact H].
        apply parse_options_unknown; [assumption|..];
          apply Ascii.eqb_neq; assumption. }
    assert (Hpo : is_port_option x = true)
      by (unfold is_port_option; rewrite Hd, Hp; reflexivity).
    destruct (bad_port_operand rest) eqn:Hb.
    { exfalso. apply (Hbad x rest r s s'); [|exact H].
      apply parse_options_p_bad; assumption. }
    destruct rest as [|y l]; [discriminate Hb|]. simpl in Hb.
    destruct (port_operand y) as [v|] eqn:Hy; [|discriminate Hb].
    rewrite (parse_options_p E x y v) in H by assumption.
    apply (IHl y l eq_refl) in H. exact H. }
  induction args as [| x | x y l IHl IHy] using list_pair_ind.
  - intros s s' r H. injection H as _ <-. reflexivity.
  - apply Hone.
    + intros s s' r H. injection H as _ <-. reflexivity.
    + intros y l Hyl. discriminate Hyl.
  - apply Hone.
    + exact IHy.
    + intros y' l' Hyl. injection Hyl as _ <-. exact IHl.
Qed.

Lemma parse_args_ret_trace (E : Engine) (argv : list string)
      (s : state E) (r : list string) (s' : state E) :
  parse_args E argv s = (Ret r, s') -> trace s' = trace s.
Proof.
  intros H. destruct argv as [|prog [|a args]];
    try (apply (f_equal fst) in H; rewrite parse_args_short in H;
         [discriminate H | simpl; lia]).
  rewrite parse_args_run in H.
  destruct (parse_options E (a :: args) (set_progName (Some prog) s))
    as [[[|p rest]| | | |] s1] eqn:Hrun; try discriminate H.
  injection H as _ <-.
  apply parse_options_ret_trace in Hrun. exact Hrun.
Qed.

(** Creating the server creates no session. *)
Lemma bootstrap_ret_calls (E : Engine) (s : state E)
      (server : RTSPServer E) (s' : state E) :
  bootstrap E s = (Ret server, s') ->
  session_calls (trace s') = session_calls (trace s).
Proof.
  intros H.
  destruct (RTSPServer_createNew E (rtspServerPortNum s) (world s))
    as [[sv|] w1] eqn:H1.
  - rewrite (bootstrap_first E s sv w1 H1) in H. injection H as _ <-.
    cbn. rewrite session_calls_app. cbn. apply app_nil_r.
  - destruct (Z.eq_dec (rtspServerPortNum s) 554) as [Hp|Hp].
    + destruct (bootstrap_default_fails E s w1 H1 Hp) as (s2 & Hb & _).
      rewrite Hb in H. discriminate H.
    + destruct (RTSPServer_createNew E 554 w1) as [[sv|] w2] eqn:H2.
      * destruct (bootstrap_fallback_succeeds E s w1 sv w2 H1 Hp H2)
          as (s2 & Hb & _ & _ & Ht).
        rewrite Hb in H. injection H as _ <-.
        rewrite Ht, session_calls_app. cbn [session_calls].
        rewrite session_calls_app, session_calls_out. cbn.
        apply app_nil_r.
      * destruct (bootstrap_fallback_fails E s w1 w2 H1 Hp H2)
          as (s2 & Hb & _).
        rewrite Hb in H. discriminate H.
Qed.

Lemma registrations_out (l : list item) : registrations (map Out l) = O.
Proof. induction l; simpl; auto. Qed.

(** Nor does it register one. *)
Lemma bootstrap_ret_registrations (E : Engine) (s : state E)
      (server : RTSPServer E) (s' : state E) :
  bootstrap E s = (Ret server, s') ->
  registrations (trace s') = registrations (trace s).
Proof.
  intros H.
  destruct (RTSPServer_createNew E (rtspServerPortNum s) (world s))
    as [[sv|] w1] eqn:H1.
  - rewrite (bootstrap_first E s sv w1 H1) in H. injection H as _ <-.
    cbn. rewrite registrations_app. cbn. lia.
  - destruct (Z.eq_dec (rtspServerPortNum s) 554) as [Hp|Hp].
    + destruct (bootstrap_default_fails E s w1 H1 Hp) as (s2 & Hb & _).
      rewrite Hb in H. discriminate H.
    + destruct (RTSPServer_createNew E 554 w1) as [[sv|] w2] eqn:H2.
      * destruct (bootstrap_fallback_succeeds E s w1 sv w2 H1 Hp H2)
          as (s2 & Hb & _ & _ & Ht).
        rewrite Hb in H. injection H as _ <-.
        rewrite Ht, registrations_app. cbn [registrations].
        rewrite registrations_app, registrations_out. cbn. lia.
      * destruct (bootstrap_fallback_fails E s w1 w2 H1 Hp H2)
          as (s2 & Hb & _).
        rewrite Hb in H. discriminate H.
Qed.

(** C5: when the arguments are accepted and the server is created but the
    definition file cannot be opened, the loader returns at once with the
    state as it was, no session is created or registered in the whole run,
    and the program enters the event loop. *)
Theorem unopenable_file_registers_nothing
    (E : Engine) (fs : filesystem) (argv : list string) (w : World E)
    (rest : list string) (s1 : state E) (server : RTSPServer E)
    (s2 : state E) :
  parse_args E argv (record (Out (Text banner)) (initial w))
  = (Ret rest, s1) ->
  bootstrap E s1 = (Ret server, s2) ->
  fs (c_str (hd EmptyString rest)) = None ->
  load E fs (hd EmptyString rest) server s2 = (Ret tt, s2)
  /\ main E fs argv (initial w) = (Forever, record EventLoop s2)
  /\ session_calls (trace (snd (main E fs argv (initial w)))) = []
  /\ registrations (trace (snd (main E fs argv (initial w)))) = O.
Proof.
  intros Hparse Hboot Hfile.
  assert (Hload : load E fs (hd EmptyString rest) server s2 = (Ret tt, s2))
    by (unfold load; rewrite Hfile; reflexivity).
  assert (Hmain : main E fs argv (initial w) = (Forever, record EventLoop s2)).
  { rewrite (main_serve E fs argv rest _ s1 Hparse).
    unfold serve, bind. rewrite Hboot, Hload. reflexivity. }
  split; [exact Hload|]. split; [exact Hmain|].
  rewrite Hmain. cbn [snd record trace].
  rewrite session_calls_app, registrations_app.
  cbn [session_calls registrations]. rewrite app_nil_r.
  rewrite (bootstrap_ret_calls E s1 server s2 Hboot).
  rewrite (bootstrap_ret_registrations E s1 server s2 Hboot).
  rewrite (parse_args_ret_trace E argv _ rest s1 Hparse).
  split; reflexivity.
Qed.

Lemma unopenable_file_registers_nothing_witness :
  let fs : filesystem := fun _ => None in
  let argv := ["proxy"; "-p"; "8554"; "missing.txt"] in
  let s1 := snd (parse_args sim argv (record (Out (Text banner)) sim_start)) in
  let s2 := snd (bootstrap sim s1) in
  load sim fs "missing.txt" 8554 s2 = (Ret tt, s2)
  /\ main sim fs argv sim_start = (Forever, record EventLoop s2)
  /\ session_calls (trace (snd (main sim fs argv sim_start))) = []
  /\ registrations (trace (snd (main sim fs argv sim_start))) = O.
Proof.
  intros fs argv s1 s2.
  apply (unopenable_file_registers_nothing sim fs argv
           ([554; 8554], EmptyString) ["missing.txt"] s1 8554 s2);
    reflexivity.
Defined.

(** * Further properties *)

(** ** The argument check, all outcomes *)

Lemma usage_run (E : Engine) (A : Type) (s : state E) :
  exists s',
    @usage E A s = (Exit 1, s')
    /\ trace s' = (trace s ++ map Out (usage_message (progName s)))%list
    /\ world s' = world s.
Proof.
  eexists. split; [reflexivity|]. cbn. rewrite <- !app_assoc.
  split; reflexivity.
Qed.

Lemma parse_options_p_bad_run (E : Engine) (opt : string)
      (rest : list string) (s : state E) :
  is_port_option opt = true -> bad_port_operand rest = true ->
  exists s',
    parse_options E (opt :: rest) s = (Exit 1, s')
    /\ trace s' = (trace s ++ map Out (usage_message (progName s)))%list
    /\ world s' = world s.
Proof.
  unfold is_port_option, bad_port_operand, port_operand, is_option, letter.
  intros H1 H2. apply andb_true_iff in H1 as [Hd Hp].
  apply Ascii.eqb_eq in Hp.
  simpl. rewrite Hd, Hp. simpl.
  destruct rest as [|tok rest]; [apply usage_run|].
  destruct (Ascii.eqb (cchar tok 0) "-"); [apply usage_run|]. simpl.
  destruct (Scanf.sscanf_hu tok) as [w|]; [|apply usage_run].
  destruct (0 <? w) eqn:Hw; [discriminate|].
  unfold bind, modify. simpl.
  apply (usage_run E (list string) (set_rtspServerPortNum w s)).
Qed.

Lemma parse_options_unknown_run (E : Engine) (opt : string)
      (rest : list string) (s : state E) :
  is_option opt = true ->
  letter opt <> "v"%char -> letter opt <> "V"%char ->
  letter opt <> "p"%char ->
  exists s',
    parse_options E (opt :: rest) s = (Exit 1, s')
    /\ trace s' = (trace s ++ map Out (usage_message (progName s)))%list
    /\ world s' = world s.
Proof.
  unfold is_option, letter; intros H Hv HV Hp; simpl. rewrite H. simpl.
  apply Ascii.eqb_neq in Hv, HV, Hp. rewrite Hv, HV, Hp. apply usage_run.
Qed.

Lemma loop_result_step (E : Engine) (x : string) (rest : list string) :
  (forall s : state E, loop_result rest s) ->
  (forall y l, rest = y :: l -> forall s : state E, loop_result l s) ->
  forall s : state E, loop_result (x :: rest) s.
Proof.
  intros IHrest IHl s. unfold loop_result.
  destruct (is_option x) eqn:Hd.
  2:{ left. exists [], (x :: rest). rewrite Hd.
      repeat split. apply parse_options_path. exact Hd. }
  assert (Hverb : forall lvl,
            is_verbosity x = true ->
            parse_options E (x :: rest) s
            = parse_options E rest (set_verbosityLevel lvl s) ->
            (forall fl, after_options (x :: fl) s
                        = after_options fl (set_verbosityLevel lvl s)) ->
            loop_result (x :: rest) s).
  { intros lvl Hx Hrun Hafter.
    destruct (IHrest (set_verbosityLevel lvl s))
      as [(fl & r & -> & Hok & Hr & Hp) | (s' & Hp & Ht & Hw)].
    - left. exists (x :: fl), r. repeat split.
      + simpl. rewrite Hx. exact Hok.
      + exact Hr.
      + rewrite Hrun, Hp, Hafter. reflexivity.
    - right. exists s'. rewrite Hrun. auto. }
  destruct (Ascii.eqb (letter x) "v") eqn:Hv.
  { apply Ascii.eqb_eq in Hv. apply (Hverb 1).
    - unfold is_verbosity. rewrite Hd, Hv. reflexivity.
    - apply parse_options_v; assumption.
    - intros fl. cbn [after_options]. rewrite Hd, Hv. reflexivity. }
  destruct (Ascii.eqb (letter x) "V") eqn:HV.
  { apply Ascii.eqb_eq in HV. apply (Hverb 2).
    - unfold is_verbosity. rewrite Hd, HV. apply orb_true_r.
    - apply parse_options_V; assumption.
    - intros fl. cbn [after_options]. rewrite Hd, Hv, HV. reflexivity. }
  clear Hverb.
  destruct (Ascii.eqb (letter x) "p") eqn:Hp.
  2:{ right. apply parse_options_unknown_run; [assumption|..];
        apply Ascii.eqb_neq; assumption. }
  assert (Hpo : is_port_option x = true)
    by (unfold is_port_option; rewrite Hd, Hp; reflexivity).
  destruct (bad_port_operand rest) eqn:Hb.
  { right. apply parse_options_p_bad_run; assumption. }
  destruct rest as [|y l]; [discriminate Hb|]. simpl in Hb.
  destruct (port_operand y) as [v|] eqn:Hy; [|discriminate Hb].
  destruct (IHl y l eq_refl (set_rtspServerPortNum v s))
    as [(fl & r & -> & Hok & Hr & Hrun) | (s' & Hrun & Ht & Hw)].
  - left. exists (x :: y :: fl), r. repeat split.
    + cbn [options_ok]. unfold is_verbosity. rewrite Hd, Hv, HV, Hpo, Hy.
      exact Hok.
    + exact Hr.
    + rewrite (parse_options_p E x y v) by assumption. rewrite Hrun.
      cbn [after_options]. rewrite Hd, Hv, HV, Hy. reflexivity.
  - right. exists s'. rewrite (parse_options_p E x y v) by assumption. auto.
Qed.

Lemma parse_options_result (E : Engine) (args : list string) :
  forall s : state E, loop_result args s.
Proof.
  induction args as [| x | x y l IHl IHy] using list_pair_ind.
  - intros s. left. exists [], []. repeat split.
  - apply loop_result_step.
    + intros s. left. exists [], []. repeat split.
    + intros y l Hyl. discriminate Hyl.
  - apply loop_result_step.
    + exact IHy.
    + intros y' l' Hyl. injection Hyl as _ <-. exact IHl.
Qed.

(** The whole argument check: it succeeds exactly on a program name, a run
    of well-formed options and a token without a dash, and otherwise leaves
    with status 1 after the usage message. *)
Lemma parse_args_result (E : Engine) (argv : list string) (s : state E) :
  (exists prog fl path extra,
      argv = (prog :: fl ++ path :: extra)%list
      /\ options_ok fl = true
      /\ is_option path = false
      /\ parse_args E argv s
         = (Ret (path :: extra),
            after_options fl (set_progName (Some prog) s)))
  \/ (exists s',
        parse_args E argv s = (Exit 1, s')
        /\ trace s'
           = (trace s ++ map Out (usage_message (hd_error argv)))%list
        /\ world s' = world s).
Proof.
  destruct argv as [|prog [|a args]].
  - right. eexists. split; [reflexivity|]. cbn. rewrite <- !app_assoc.
    split; reflexivity.
  - right. eexists. split; [reflexivity|]. cbn. rewrite <- !app_assoc.
    split; reflexivity.
  - rewrite parse_args_run. cbn [hd_error].
    destruct (parse_options_result E (a :: args) (set_progName (Some prog) s))
      as [(fl & r & Hargs & Hok & Hr & Hrun) | (s' & Hrun & Ht & Hw)].
    + rewrite Hrun. destruct r as [|path extra].
      * right.
        destruct (after_options_trace E fl (set_progName (Some prog) s))
          as (At & Aw & Ap).
        destruct (usage_run E unit
                    (after_options fl (set_progName (Some prog) s)))
          as (s' & Hu & Ht & Hw).
        exists s'. rewrite Hu. cbn [snd]. split; [reflexivity|].
        rewrite Ht, Hw, At, Aw, Ap. split; reflexivity.
      * left. exists prog, fl, path, extra. rewrite Hargs. auto.
    + right. exists s'. rewrite Hrun. auto.
Qed.

Lemma port_operand_range (tok : string) (v : Z) :
  port_operand tok = Some v -> 0 < v <= 65535.
Proof.
  unfold port_operand. destruct (is_option tok); [discriminate|].
  destruct (Scanf.sscanf_hu tok) as [w|] eqn:Hs; [|discriminate].
  destruct (0 <? w) eqn:Hw; [|discriminate].
  intros H. injection H as <-. apply Z.ltb_lt in Hw.
  apply sscanf_hu_range in Hs. lia.
Qed.

Lemma after_options_port_range (E : Engine) (fl : list string) :
  forall s : state E,
    options_ok fl = true ->
    0 < rtspServerPortNum s <= 65535 ->
    0 < rtspServerPortNum (after_options fl s) <= 65535.
Proof.
  induction fl as [| x | x y l IHl IHy] using list_pair_ind;
    intros s Hok Hs.
  - exact Hs.
  - cbn [after_options]. destruct (is_option x); [|exact Hs].
    destruct (Ascii.eqb (letter x) "v"); [exact Hs|].
    destruct (Ascii.eqb (letter x) "V"); exact Hs.
  - cbn [options_ok] in Hok. cbn [after_options].
    destruct (is_option x) eqn:Hd; [|exact Hs].
    unfold is_verbosity, is_port_option in Hok. rewrite Hd in Hok.
    cbn [andb] in Hok.
    destruct (Ascii.eqb (letter x) "v").
    { apply IHy; [exact Hok | exact Hs]. }
    destruct (Ascii.eqb (letter x) "V").
    { apply IHy; [exact Hok | exact Hs]. }
    cbn [orb] in Hok.
    destruct (Ascii.eqb (letter x) "p"); [|discriminate Hok].
    destruct (port_operand y) as [v|] eqn:Hy; [|discriminate Hok].
    apply IHl; [exact Hok|]. cbn. apply (port_operand_range y v Hy).
Qed.

Lemma after_options_verbosity (E : Engine) (ps : list string) :
  forall s : state E,
    options_ok ps = true -> no_verbosity ps = true ->
    verbosityLevel (after_options ps s) = verbosityLevel s.
Proof.
  unfold no_verbosity.
  induction ps as [| x | x y l IHl IHy] using list_pair_ind;
    intros s Hok Hnv.
  - reflexivity.
  - simpl in Hok, Hnv. destruct (is_verbosity x); [discriminate Hnv|].
    destruct (is_port_option x); discriminate Hok.
  - cbn [options_ok] in Hok. cbn [forallb] in Hnv.
    destruct (is_verbosity x) eqn:Hx; [discriminate Hnv|].
    destruct (is_port_option x) eqn:Hp; [|discriminate Hok].
    destruct (port_operand y) as [v|] eqn:Hy; [|discriminate Hok].
    apply is_port_option_cases in Hp as [Hd Hl].
    cbn [after_options]. rewrite Hd, Hl, Hy. cbn [Ascii.eqb Bool.eqb].
    cbn [negb andb] in Hnv. apply andb_true_iff in Hnv as [_ Hnv].
    rewrite IHl by assumption. reflexivity.
Qed.

(** X1: an option the loop reaches whose letter is not [v], [V] or [p]
    (a bare dash included) ends the argument check and the program with
    the usage failure, exit status 1. *)
Theorem unknown_option_is_usage_failure
    (E : Engine) (fs : filesystem) (prog : string) (fl : list string)
    (opt : string) (rest : list string) (s : state E) :
  options_ok fl = true ->
  is_option opt = true ->
  letter opt <> "v"%char -> letter opt <> "V"%char ->
  letter opt <> "p"%char ->
  fst (parse_args E (prog :: fl ++ opt :: rest)%list s) = Exit 1
  /\ fst (main E fs (prog :: fl ++ opt :: rest)%list s) = Exit 1.
Proof.
  intros Hfl Hd Hv HV Hp.
  assert (Hall : forall s0 : state E,
            fst (parse_args E (prog :: fl ++ opt :: rest)%list s0) = Exit 1).
  { intros s0.
    assert (Hrun :
      fst (parse_options E (fl ++ opt :: rest)%list
             (set_progName (Some prog) s0)) = Exit 1).
    { rewrite parse_options_app by exact Hfl.
      apply parse_options_unknown; assumption. }
    destruct fl as [|x fl]; cbn [app] in *; rewrite parse_args_run;
      match goal with
      | |- context [parse_options E ?a ?st] =>
          destruct (parse_options E a st) as [[r| | | |] s'];
          simpl in Hrun; try discriminate Hrun
      end; simpl; exact Hrun. }
  split; [apply Hall | apply main_usage, Hall].
Qed.

Lemma unknown_option_is_usage_failure_witness :
  let fs : filesystem := fun _ => None in
  fst (parse_args sim ["proxy"; "-v"; "-"; "streams.txt"] sim_start) = Exit 1
  /\ fst (main sim fs ["proxy"; "-v"; "-"; "streams.txt"] sim_start) = Exit 1.
Proof.
  intros fs.
  apply (unknown_option_is_usage_failure sim fs "proxy" ["-v"] "-"
           ["streams.txt"] sim_start); try reflexivity; discriminate.
Defined.

(** X2: of several [-v] and [-V] the last one decides: after a successful
    argument check the verbosity level is 1 when the last verbosity flag
    has the letter [v] and 2 when it has [V], whatever came before it. *)
Theorem last_verbosity_flag_wins
    (E : Engine) (prog : string) (fl : list string) (opt : string)
    (ps : list string) (path : string) (extra : list string)
    (s : state E) :
  options_ok fl = true ->
  is_verbosity opt = true ->
  options_ok ps = true ->
  no_verbosity ps = true ->
  is_option path = false ->
  fst (parse_args E (prog :: fl ++ opt :: ps ++ path :: extra)%list s)
  = Ret (path :: extra)
  /\ verbosityLevel
       (snd (parse_args E (prog :: fl ++ opt :: ps ++ path :: extra)%list s))
     = if Ascii.eqb (letter opt) "v" then 1 else 2.
Proof.
  intros Hfl Hopt Hps Hnv Hpath.
  apply is_verbosity_cases in Hopt as [Hd Hl].
  assert (Hrun :
    parse_options E (fl ++ opt :: ps ++ path :: extra)%list
      (set_progName (Some prog) s)
    = (Ret (path :: extra),
       after_options ps
         (set_verbosityLevel (if Ascii.eqb (letter opt) "v" then 1 else 2)
            (after_options fl (set_progName (Some prog) s))))).
  { rewrite parse_options_app by exact Hfl.
    destruct Hl as [Hl|Hl]; rewrite Hl; cbn [Ascii.eqb Bool.eqb].
    - rewrite parse_options_v by assumption.
      rewrite parse_options_app by exact Hps.
      apply parse_options_path. exact Hpath.
    - rewrite parse_options_V by assumption.
      rewrite parse_options_app by exact Hps.
      apply parse_options_path. exact Hpath. }
  assert (Hargs :
    parse_args E (prog :: fl ++ opt :: ps ++ path :: extra)%list s
    = (Ret (path :: extra),
       after_options ps
         (set_verbosityLevel (if Ascii.eqb (letter opt) "v" then 1 else 2)
            (after_options fl (set_progName (Some prog) s))))).
  { destruct fl as [|x fl]; cbn [app] in *;
      rewrite parse_args_run, Hrun; reflexivity. }
  rewrite Hargs. split; [reflexivity|]. cbn [snd].
  rewrite after_options_verbosity by assumption. reflexivity.
Qed.

Lemma last_verbosity_flag_wins_witness :
  fst (parse_args sim
         ["proxy"; "-V"; "-v"; "-p"; "8554"; "streams.txt"] sim_start)
  = Ret ["streams.txt"]
  /\ verbosityLevel
       (snd (parse_args sim
               ["proxy"; "-V"; "-v"; "-p"; "8554"; "streams.txt"]
               sim_start)) = 1.
Proof.
  apply (last_verbosity_flag_wins sim "proxy" ["-V"] "-v" ["-p"; "8554"]
           "streams.txt" [] sim_start); reflexivity.
Defined.

(** X3: the argument check succeeds only on a well-formed vector: when it
    returns, the vector is a program name, a run of well-formed options
    and a token without a dash; what is returned starts at that token, and
    the globals are those the options set. *)
Theorem accepted_vector_is_well_formed
    (E : Engine) (argv rest : list string) (s s' : state E) :
  parse_args E argv s = (Ret rest, s') ->
  exists prog fl path extra,
    argv = (prog :: fl ++ path :: extra)%list
    /\ rest = path :: extra
    /\ options_ok fl = true
    /\ is_option path = false
    /\ s' = after_options fl (set_progName (Some prog) s).
Proof.
  intros H.
  destruct (parse_args_result E argv s)
    as [(prog & fl & path & extra & Hargv & Hok & Hp & Hrun)
       | (s1 & Hrun & _)].
  - rewrite Hrun in H. injection H as <- <-.
    exists prog, fl, path, extra. auto.
  - rewrite Hrun in H. discriminate H.
Qed.

Lemma accepted_vector_is_well_formed_witness :
  exists prog fl path extra,
    ["proxy"; "-p"; "80abc"; "streams.txt"; "more"]
    = (prog :: fl ++ path :: extra)%list
    /\ ["streams.txt"; "more"] = path :: extra
    /\ options_ok fl = true
    /\ is_option path = false
    /\ snd (parse_args sim ["proxy"; "-p"; "80abc"; "streams.txt"; "more"]
              sim_start)
       = after_options fl (set_progName (Some prog) sim_start).
Proof.
  apply (accepted_vector_is_well_formed sim
           ["proxy"; "-p"; "80abc"; "streams.txt"; "more"]
           ["streams.txt"; "more"] sim_start). reflexivity.
Defined.

(** X4: a successful argument check leaves a port between 1 and 65535 in
    [rtspServerPortNum] whenever it started with one, as it does from the
    initial 554. *)
Theorem parsed_port_is_in_range
    (E : Engine) (argv rest : list string) (s s' : state E) :
  parse_args E argv s = (Ret rest, s') ->
  0 < rtspServerPortNum s <= 65535 ->
  0 < rtspServerPortNum s' <= 65535.
Proof.
  intros H Hs.
  destruct (parse_args_result E argv s)
    as [(prog & fl & path & extra & Hargv & Hok & Hp & Hrun)
       | (s1 & Hrun & _)].
  - rewrite Hrun in H. injection H as _ <-.
    apply after_options_port_range; [exact Hok | exact Hs].
  - rewrite Hrun in H. discriminate H.
Qed.

Lemma parsed_port_is_in_range_witness :
  0 < rtspServerPortNum
        (snd (parse_args sim ["proxy"; "-p"; "74090"; "streams.txt"]
                sim_start)) <= 65535.
Proof.
  apply (parsed_port_is_in_range sim
           ["proxy"; "-p"; "74090"; "streams.txt"] ["streams.txt"]
           sim_start); [reflexivity | simpl; lia].
Defined.

(** X5: the argument check has two ways to end.  It returns, having
    printed nothing and left the engine alone; or it exits with status 1,
    having printed the usage message once, with [argv[0]] as the program
    name, and left the engine alone. *)
Theorem argument_check_outcomes
    (E : Engine) (argv : list string) (s : state E) :
  world (snd (parse_args E argv s)) = world s
  /\ match fst (parse_args E argv s) with
     | Ret _ => trace (snd (parse_args E argv s)) = trace s
     | Exit n =>
         n = 1
         /\ trace (snd (parse_args E argv s))
            = (trace s ++ map Out (usage_message (hd_error argv)))%list
     | _ => False
     end.
Proof.
  destruct (parse_args_result E argv s)
    as [(prog & fl & path & extra & Hargv & Hok & Hp & Hrun)
       | (s1 & Hrun & Ht & Hw)]; rewrite Hrun; cbn [fst snd].
  - destruct (after_options_trace E fl (set_progName (Some prog) s))
      as (At & Aw & _).
    rewrite At, Aw. split; reflexivity.
  - auto.
Qed.

(** ** The RTSP server, further *)

(** X6: when the server is created, [rtspServerPortNum] is the port of
    the attempt that gave it, which is the last attempt of the trace; it is
    the configured port or 554. *)
Theorem server_port_is_bound_port
    (E : Engine) (s : state E) (server : RTSPServer E) (s' : state E) :
  bootstrap E s = (Ret server, s') ->
  (exists w,
      RTSPServer_createNew E (rtspServerPortNum s') w
      = (Some server, world s'))
  /\ last (server_attempts (trace s')) 0 = rtspServerPortNum s'
  /\ (rtspServerPortNum s' = rtspServerPortNum s
      \/ rtspServerPortNum s' = 554).
Proof.
  intros H.
  destruct (RTSPServer_createNew E (rtspServerPortNum s) (world s))
    as [[sv|] w1] eqn:H1.
  - rewrite (bootstrap_first E s sv w1 H1) in H. injection H as <- <-.
    cbn. split; [exists (world s); exact H1|].
    rewrite server_attempts_app. cbn. rewrite last_last. auto.
  - destruct (Z.eq_dec (rtspServerPortNum s) 554) as [Hp|Hp].
    + destruct (bootstrap_default_fails E s w1 H1 Hp) as (s2 & Hb & _).
      rewrite Hb in H. discriminate H.
    + destruct (RTSPServer_createNew E 554 w1) as [[sv|] w2] eqn:H2.
      * destruct (bootstrap_fallback_succeeds E s w1 sv w2 H1 Hp H2)
          as (s2 & Hb & Hw & Hport & Ht).
        rewrite Hb in H. injection H as <- <-.
        rewrite Hport, Hw. split; [exists w1; exact H2|].
        split; [|right; reflexivity].
        rewrite Ht, server_attempts_app. cbn [server_attempts].
        rewrite server_attempts_app, server_attempts_out. cbn.
        change (server_attempts (trace s) ++ [rtspServerPortNum s; 554])%list
          with (server_attempts (trace s)
                  ++ [rtspServerPortNum s] ++ [554])%list.
        rewrite app_assoc, last_last. reflexivity.
      * destruct (bootstrap_fallback_fails E s w1 w2 H1 Hp H2)
          as (s2 & Hb & _).
        rewrite Hb in H. discriminate H.
Qed.

Lemma server_port_is_bound_port_witness :
  (exists w,
      RTSPServer_createNew sim (rtspServerPortNum sim_after_fallback) w
      = (Some 554, world sim_after_fallback))
  /\ last (server_attempts (trace sim_after_fallback)) 0
     = rtspServerPortNum sim_after_fallback
  /\ (rtspServerPortNum sim_after_fallback = 9999
      \/ rtspServerPortNum sim_after_fallback = 554).
Proof.
  apply (server_port_is_bound_port sim
           (set_rtspServerPortNum 9999 sim_start) 554 sim_after_fallback).
  vm_compute. reflexivity.
Defined.

(** X7: when the configured port is not 554 and cannot be bound, the
    program says so before it tries again: it prints the port that failed
    with the engine's result message and the notice of the fall-back, then
    makes the attempt on 554; from then on [rtspServerPortNum] is 554,
    whether or not that attempt gives a server. *)
Theorem fallback_is_announced
    (E : Engine) (s : state E) (w1 : World E) :
  RTSPServer_createNew E (rtspServerPortNum s) (world s) = (None, w1) ->
  rtspServerPortNum s <> 554 ->
  rtspServerPortNum (snd (bootstrap E s)) = 554
  /\ exists evs,
      trace (snd (bootstrap E s))
      = (trace s
           ++ CreateServer (rtspServerPortNum s)
           :: map Out (fallback_notice (rtspServerPortNum s)
                         (getResultMsg E w1))
           ++ CreateServer 554 :: evs)%list
      /\ server_attempts evs = [].
Proof.
  intros H1 Hp.
  destruct (RTSPServer_createNew E 554 w1) as [[sv|] w2] eqn:H2.
  - destruct (bootstrap_fallback_succeeds E s w1 sv w2 H1 Hp H2)
      as (s2 & Hb & Hw & Hport & Ht).
    rewrite Hb. cbn [snd]. split; [exact Hport|].
    exists []. split; [exact Ht | reflexivity].
  - apply Z.eqb_neq in Hp.
    unfold bootstrap, bind, gets, createRTSPServer.
    rewrite H1. cbn. rewrite Hp. cbn. rewrite H2. cbn.
    split; [reflexivity|].
    eexists. rewrite <- !app_assoc. cbn. split; [reflexivity|].
    reflexivity.
Qed.

Lemma fallback_is_announced_witness :
  let s := set_rtspServerPortNum 9999 sim_start in
  rtspServerPortNum (snd (bootstrap sim s)) = 554
  /\ exists evs,
      trace (snd (bootstrap sim s))
      = (trace s
           ++ CreateServer 9999
           :: map Out (fallback_notice 9999 "bind() error")
           ++ CreateServer 554 :: evs)%list
      /\ server_attempts evs = [].
Proof.
  intros s.
  apply (fallback_is_announced sim s ([554; 8554], "bind() error"));
    [reflexivity | discriminate].
Defined.

(** ** The loader, line by line *)

Lemma creations_app (t u : list event) :
  creations (t ++ u) = (creations t ++ creations u)%list.
Proof.
  induction t as [|e t IH]; simpl; [reflexivity|].
  destruct e; simpl; rewrite IH; reflexivity.
Qed.

Lemma creations_out (l : list item) : creations (map Out l) = [].
Proof. induction l; simpl; auto. Qed.

Lemma same_globals_refl (E : Engine) (s : state E) : same_globals s s.
Proof. repeat split. Qed.

Lemma same_globals_trans (E : Engine) (s1 s2 s3 : state E) :
  same_globals s1 s2 -> same_globals s2 s3 -> same_globals s1 s3.
Proof.
  unfold same_globals. intros (A1 & A2 & A3 & A4 & A5 & A6)
                              (B1 & B2 & B3 & B4 & B5 & B6).
  repeat split; congruence.
Qed.

(** Everything one turn of the loop can do. *)
Lemma load_line_run (E : Engine) (server : RTSPServer E) (line : string)
      (s : state E) :
  match StdString.front line with
  | None => load_line E server line s = (Undefined, s)
  | Some c =>
      if Ascii.eqb c "#" then load_line E server line s = (Ret tt, s)
      else
        match substr_after line with
        | None =>
            load_line E server line s = (Throw "basic_string::substr", s)
        | Some n =>
            exists s' playback,
              load_line E server line s = (Ret tt, s')
              /\ same_globals s s'
              /\ trace s'
                 = (trace s
                      ++ CreateSession (c_str line) (c_str n)
                           (username s) (password s)
                           (tunnelOverHTTPPortNum s) (verbosityLevel s)
                      :: AddSession
                      :: map Out (entry_report (c_str line) playback))%list
        end
  end.
Proof.
  destruct line as [|c r]; [reflexivity|]. cbn [StdString.front].
  destruct (Ascii.eqb c "#") eqn:Hc.
  - unfold load_line, bind. cbn [StdString.front require ret].
    rewrite Hc. reflexivity.
  - destruct (substr_url (String c r) (StdString.find (String c r) " "))
      as [url Hurl].
    unfold substr_after.
    destruct (StdString.substr (String c r)
                (StdString.size_add (StdString.find (String c r) " ") 1)
                StdString.npos) as [n|] eqn:Hn.
    + unfold load_line, bind. cbn [StdString.front require ret].
      rewrite Hc. cbn [String.eqb]. rewrite Hurl, Hn.
      cbn [or_throw ret]. eexists. eexists.
      split; [reflexivity|]. split; [repeat split|].
      cbn. rewrite <- !app_assoc. reflexivity.
    + unfold load_line, bind. cbn [StdString.front require ret].
      rewrite Hc. cbn [String.eqb]. rewrite Hurl, Hn. reflexivity.
Qed.

Lemma load_lines_app (E : Engine) (server : RTSPServer E)
      (a b : list string) :
  forall s,
    load_lines E server (a ++ b) s
    = bind E (load_lines E server a) (fun _ => load_lines E server b) s.
Proof.
  induction a as [|l a IH]; intros s; [reflexivity|].
  cbn [app load_lines]. unfold bind.
  destruct (load_line E server l s) as [[[]| | | |] s1]; try reflexivity.
  rewrite IH. unfold bind. reflexivity.
Qed.

(** The loader stops in one of three ways, keeps the globals, and creates
    its sessions from them. *)
Lemma load_lines_any (E : Engine) (server : RTSPServer E)
      (lines : list string) :
  forall s,
    loader_outcome (fst (load_lines E server lines s))
    /\ same_globals s (snd (load_lines E server lines s))
    /\ (unconfigured s -> unconfigured (snd (load_lines E server lines s))).
Proof.
  induction lines as [|line lines IH]; intros s.
  - cbn. split; [exact I|]. split; [apply same_globals_refl | auto].
  - cbn [load_lines]. unfold bind.
    pose proof (load_line_run E server line s) as Hrun.
    destruct (StdString.front line) as [c|].
    2:{ rewrite Hrun. cbn. split; [exact I|].
        split; [apply same_globals_refl | auto]. }
    destruct (Ascii.eqb c "#").
    { rewrite Hrun. apply IH. }
    destruct (substr_after line) as [n|].
    2:{ rewrite Hrun. cbn. split; [exact I|].
        split; [apply same_globals_refl | auto]. }
    destruct Hrun as (s1 & playback & Hrun & Hg & Ht).
    rewrite Hrun. destruct (IH s1) as (Ho & Hg1 & Hu).
    split; [exact Ho|].
    split; [apply (same_globals_trans E s s1 _ Hg Hg1)|].
    intros (U1 & U2 & U3 & U4). apply Hu.
    destruct Hg as (_ & _ & G3 & _ & G5 & G6).
    unfold unconfigured. rewrite G3, G5, G6, Ht.
    repeat split; try assumption.
    apply Forall_app. split; [exact U4|].
    constructor; [cbn; auto|]. constructor; [exact I|].
    cbn. repeat constructor.
Qed.

(** X15: on a line a [std::string] can hold the loop body neither throws
    nor exits: it is undefined on the empty line and otherwise returns to
    the loop. *)
Theorem load_line_never_throws
    (E : Engine) (server : RTSPServer E) (line : string) (s : state E) :
  StdString.size line < StdString.npos ->
  fst (load_line E server line s)
  = if String.eqb line EmptyString then Undefined else Ret tt.
Proof.
  intros Hlen. pose proof (load_line_run E server line s) as Hrun.
  pose proof (substr_name line Hlen) as Hname. fold (substr_after line) in Hname.
  destruct line as [|c r]; [rewrite Hrun; reflexivity|].
  cbn [StdString.front] in Hrun. cbn [String.eqb].
  destruct (Ascii.eqb c "#"); [rewrite Hrun; reflexivity|].
  rewrite Hname in Hrun. destruct Hrun as (s' & p & Hrun & _).
  rewrite Hrun. reflexivity.
Qed.

Lemma load_line_never_throws_witness :
  fst (load_line sim 554 "rtsp://cam3.example.com/a b c" sim_start) = Ret tt.
Proof.
  apply (load_line_never_throws sim 554 "rtsp://cam3.example.com/a b c"
           sim_start). reflexivity.
Defined.

Lemma load_lines_creations (E : Engine) (server : RTSPServer E)
      (lines : list string) :
  forall s,
    forallb readable lines = true ->
    exists s',
      load_lines E server lines s = (Ret tt, s')
      /\ same_globals s s'
      /\ creations (trace s')
         = (creations (trace s)
              ++ map (entry_session s)
                   (filter (fun l => negb (is_comment l)) lines))%list
      /\ registrations (trace s')
         = (registrations (trace s)
            + List.length (filter (fun l => negb (is_comment l)) lines))%nat.
Proof.
  induction lines as [|line lines IH]; intros s H.
  - exists s. split; [reflexivity|]. split; [apply same_globals_refl|].
    cbn. rewrite app_nil_r. split; [reflexivity | lia].
  - simpl in H. apply andb_true_iff in H as [Hr H].
    cbn [load_lines filter]. unfold bind.
    pose proof (load_line_run E server line s) as Hrun.
    unfold readable in Hr. apply andb_true_iff in Hr as [Hne Hlen].
    apply Z.ltb_lt in Hlen.
    pose proof (substr_name line Hlen) as Hname.
    fold (substr_after line) in Hname.
    destruct line as [|c r]; [discriminate Hne|].
    cbn [StdString.front] in Hrun. cbn [is_comment].
    destruct (Ascii.eqb c "#").
    + rewrite Hrun. cbn [negb]. apply IH, H.
    + rewrite Hname in Hrun.
      destruct Hrun as (s1 & playback & Hrun & Hg & Ht).
      rewrite Hrun. destruct (IH s1 H) as (s' & H2 & Hg2 & C2 & R2).
      exists s'. split; [exact H2|].
      split; [apply (same_globals_trans E s s1 s' Hg Hg2)|].
      assert (Hentry : forall l, entry_session s1 l = entry_session s l).
      { intros l. unfold entry_session.
        destruct Hg as (_ & G2 & G3 & _ & G5 & G6).
        rewrite G2, G3, G5, G6. reflexivity. }
      rewrite C2, R2, Ht. cbn [negb map List.length].
      rewrite creations_app, registrations_app. cbn [creations registrations].
      rewrite creations_out, registrations_out.
      rewrite (map_ext _ _ Hentry). rewrite <- app_assoc.
      split; [reflexivity | lia].
Qed.

(** X9: a definition file that can be opened and has no blank line is
    loaded to its end.  The sessions created are those of the lines that do
    not begin with [#], in the order of the file, each from the whole line
    and the name after its first space, with the credentials, tunnelling
    port and verbosity level of the globals; as many sessions are
    registered as are created, and the globals are left as they were. *)
Theorem definition_file_is_loaded_in_order
    (E : Engine) (fs : filesystem) (path bytes : string)
    (server : RTSPServer E) (s : state E) :
  fs (c_str path) = Some bytes ->
  forallb readable (getlines bytes) = true ->
  let entries := filter (fun l => negb (is_comment l)) (getlines bytes) in
  let r := load E fs path server s in
  fst r = Ret tt
  /\ same_globals s (snd r)
  /\ creations (trace (snd r))
     = (creations (trace s) ++ map (entry_session s) entries)%list
  /\ registrations (trace (snd r))
     = (registrations (trace s) + List.length entries)%nat.
Proof.
  intros Hfs Hr entries r. subst entries r. unfold load. rewrite Hfs.
  destruct (load_lines_creations E server (getlines bytes) s Hr)
    as (s' & H & Hg & C & R).
  rewrite H. cbn [fst snd]. auto.
Qed.

Lemma definition_file_is_loaded_in_order_witness :
  let bytes :=
    "# cameras" ++ nl ++ "rtsp://a/1 one" ++ nl ++ "rtsp://b/2 two" in
  let fs : filesystem := fun _ => Some bytes in
  let r := load sim fs "streams.txt" 554 sim_start in
  fst r = Ret tt
  /\ same_globals sim_start (snd r)
  /\ creations (trace (snd r))
     = [CreateSession "rtsp://a/1 one" "one" None None 0 0;
        CreateSession "rtsp://b/2 two" "two" None None 0 0]
  /\ registrations (trace (snd r)) = 2%nat.
Proof.
  intros bytes fs r.
  apply (definition_file_is_loaded_in_order sim fs "streams.txt" bytes 554
           sim_start); reflexivity.
Defined.

Lemma name_of_split (url name : string) :
  has_space url = false ->
  name_of (url ++ String " " name) = name.
Proof.
  intros H. unfold name_of.
  assert (Hs : has_space (url ++ String " " name) = true
               /\ after_space (url ++ String " " name) = name).
  { induction url as [|c url IH]; [split; reflexivity|].
    simpl in H. apply orb_false_iff in H as [Hc Hu].
    simpl. rewrite Hc. simpl. apply IH. exact Hu. }
  destruct Hs as [-> ->]. reflexivity.
Qed.

(** X10: a line is split at its first space and nowhere else: when the
    text before the first space has none, the published name is all that
    follows that space, further spaces included. *)
Theorem name_is_all_after_first_space
    (E : Engine) (server : RTSPServer E) (url name : string) (s : state E) :
  has_space url = false ->
  readable (url ++ String " " name) = true ->
  is_comment (url ++ String " " name) = false ->
  fst (load_line E server (url ++ String " " name) s) = Ret tt
  /\ session_calls
       (trace (snd (load_line E server (url ++ String " " name) s)))
     = (session_calls (trace s)
          ++ [(c_str (url ++ String " " name), c_str name)])%list.
Proof.
  intros Hu Hr Hc.
  destruct (load_line_entry E server _ s Hr Hc) as (s' & H & C).
  rewrite H. cbn [fst snd]. split; [reflexivity|].
  rewrite C. unfold call_of. rewrite (name_of_split url name Hu).
  reflexivity.
Qed.

Lemma name_is_all_after_first_space_witness :
  fst (load_line sim 554 "rtsp://cam3.example.com/a front door" sim_start)
  = Ret tt
  /\ session_calls
       (trace (snd (load_line sim 554
                      "rtsp://cam3.example.com/a front door" sim_start)))
     = [("rtsp://cam3.example.com/a front door", "front door")].
Proof.
  apply (name_is_all_after_first_space sim 554 "rtsp://cam3.example.com/a"
           "front door" sim_start); reflexivity.
Defined.

(** ** Lines of a file *)

Lemma append_assoc3 (a b c : string) : ((a ++ b) ++ c = a ++ (b ++ c))%string.
Proof. induction a as [|x a IH]; simpl; [|rewrite IH]; reflexivity. Qed.

Lemma append_empty_r (a : string) : (a ++ EmptyString = a)%string.
Proof. induction a as [|x a IH]; simpl; [|rewrite IH]; reflexivity. Qed.

Lemma getlines_from_line (l : string) :
  forall cur rest,
    no_newline l = true ->
    getlines_from cur (l ++ nl ++ rest)
    = (cur ++ l)%string :: getlines_from EmptyString rest.
Proof.
  induction l as [|c l IH]; intros cur rest H.
  - simpl. rewrite append_empty_r. reflexivity.
  - simpl in H. apply andb_true_iff in H as [Hc Hl].
    apply negb_true_iff in Hc.
    cbn [append getlines_from]. rewrite Hc.
    rewrite IH by exact Hl. rewrite append_assoc3. reflexivity.
Qed.

Lemma getlines_from_last (l : string) :
  forall cur,
    no_newline l = true ->
    getlines_from cur l
    = if String.eqb (cur ++ l) EmptyString then [] else [(cur ++ l)%string].
Proof.
  induction l as [|c l IH]; intros cur H.
  - simpl. rewrite append_empty_r. destruct cur; reflexivity.
  - simpl in H. apply andb_true_iff in H as [Hc Hl].
    apply negb_true_iff in Hc.
    cbn [getlines_from]. rewrite Hc.
    rewrite IH by exact Hl. rewrite append_assoc3. reflexivity.
Qed.

(** X12: [getline] gives back the lines a file was written from: for
    lines without a newline in them, each written with a newline after it,
    followed by a last line that may lack its newline, the loop sees those
    lines in order, and the last one only when it is not empty. *)
Theorem getlines_of_joined_lines (lines : list string) (last : string) :
  forallb no_newline lines = true ->
  no_newline last = true ->
  getlines (join_lines lines ++ last)
  = (lines ++ if String.eqb last EmptyString then [] else [last])%list.
Proof.
  unfold getlines. intros H Hlast.
  induction lines as [|l lines IH].
  - cbn [join_lines append app].
    rewrite (getlines_from_last last EmptyString Hlast). reflexivity.
  - simpl in H. apply andb_true_iff in H as [Hl H].
    cbn [join_lines]. rewrite !append_assoc3.
    rewrite (getlines_from_line l EmptyString _ Hl).
    rewrite IH by exact H. reflexivity.
Qed.

Lemma getlines_of_joined_lines_witness :
  getlines (join_lines ["# cameras"; EmptyString; "rtsp://a/1 one"]
              ++ "rtsp://b/2 two")
  = ["# cameras"; EmptyString; "rtsp://a/1 one"; "rtsp://b/2 two"].
Proof.
  apply (getlines_of_joined_lines
           ["# cameras"; EmptyString; "rtsp://a/1 one"] "rtsp://b/2 two");
    reflexivity.
Defined.

(** ** The whole run *)

Lemma after_options_settings (E : Engine) (fl : list string) :
  forall s : state E,
    username (after_options fl s) = username s
    /\ password (after_options fl s) = password s
    /\ tunnelOverHTTPPortNum (after_options fl s) = tunnelOverHTTPPortNum s.
Proof.
  induction fl as [| x | x y l IHl IHy] using list_pair_ind; intros s.
  - auto.
  - simpl. destruct (is_option x); auto.
    destruct (Ascii.eqb (letter x) "v"); auto.
    destruct (Ascii.eqb (letter x) "V"); auto.
  - cbn [after_options]. destruct (is_option x); auto.
    destruct (Ascii.eqb (letter x) "v");
      [exact (IHy (set_verbosityLevel 1 s))|].
    destruct (Ascii.eqb (letter x) "V");
      [exact (IHy (set_verbosityLevel 2 s))|].
    destruct (port_operand y) as [v|];
      [exact (IHl (set_rtspServerPortNum v s))|auto].
Qed.

Lemma bootstrap_any (E : Engine) (s : state E) :
  ((exists server s', bootstrap E s = (Ret server, s'))
   \/ (exists s', bootstrap E s = (Exit 1, s')))
  /\ (unconfigured s -> unconfigured (snd (bootstrap E s))).
Proof.
  unfold bootstrap, bind, gets, createRTSPServer, unconfigured.
  destruct (RTSPServer_createNew E (rtspServerPortNum s) (world s))
    as [[sv|] w1]; cbn.
  - split; [left; eexists; eexists; reflexivity|]. intros (U1 & U2 & U3 & U4).
    repeat split; try assumption.
    apply Forall_app. split; [exact U4 | repeat constructor].
  - destruct (rtspServerPortNum s =? 554); cbn.
    + split; [right; eexists; reflexivity|]. intros (U1 & U2 & U3 & U4).
      repeat split; try assumption. rewrite <- !app_assoc.
      apply Forall_app. split; [exact U4 | repeat constructor].
    + destruct (RTSPServer_createNew E 554 w1) as [[sv|] w2]; cbn.
      * split; [left; eexists; eexists; reflexivity|]. intros (U1 & U2 & U3 & U4).
        repeat split; try assumption. rewrite <- !app_assoc.
        apply Forall_app. split; [exact U4 | repeat constructor].
      * split; [right; eexists; reflexivity|]. intros (U1 & U2 & U3 & U4).
        repeat split; try assumption. rewrite <- !app_assoc.
        apply Forall_app. split; [exact U4 | repeat constructor].
Qed.

Lemma load_any (E : Engine) (fs : filesystem) (path : string)
      (server : RTSPServer E) (s : state E) :
  loader_outcome (fst (load E fs path server s))
  /\ (unconfigured s -> unconfigured (snd (load E fs path server s))).
Proof.
  unfold load. destruct (fs (c_str path)) as [bytes|].
  - destruct (load_lines_any E server (getlines bytes) s) as (Ho & _ & Hu).
    auto.
  - cbn. auto.
Qed.

Lemma main_stop (E : Engine) (fs : filesystem) (argv : list string)
      (s s' : state E) (n : Z) :
  parse_args E argv (record (Out (Text banner)) s) = (Exit n, s') ->
  main E fs argv s = (Exit n, s').
Proof.
  intros H. unfold main. unfold bind at 1. unfold print, out, modify.
  unfold bind at 1. fold banner. rewrite H. reflexivity.
Qed.

Lemma serve_stop (E : Engine) (fs : filesystem) (path : string)
      (s s' : state E) (n : Z) :
  bootstrap E s = (Exit n, s') -> serve E fs path s = (Exit n, s').
Proof. intros H. unfold serve, bind. rewrite H. reflexivity. Qed.

Lemma serve_run (E : Engine) (fs : filesystem) (path : string)
      (s s' : state E) (server : RTSPServer E) :
  bootstrap E s = (Ret server, s') ->
  serve E fs path s
  = match load E fs path server s' with
    | (Ret _, s3) => (Forever, record EventLoop s3)
    | (Exit n, s3) => (Exit n, s3)
    | (Undefined, s3) => (Undefined, s3)
    | (Throw w, s3) => (Throw w, s3)
    | (Forever, s3) => (Forever, s3)
    end.
Proof.
  intros H. unfold serve, bind. rewrite H.
  destruct (load E fs path server s') as [[[]| | | |] s3]; reflexivity.
Qed.

(** X14: the program never returns from [main] and never exits with a
    status other than 1; when it is in the event loop, entering it was the
    last thing it did. *)
Theorem main_exits_with_one_or_serves
    (E : Engine) (fs : filesystem) (argv : list string) (s : state E) :
  (forall n, fst (main E fs argv s) = Exit n -> n = 1)
  /\ (forall u, fst (main E fs argv s) <> Ret u)
  /\ (fst (main E fs argv s) = Forever ->
      exists s3, snd (main E fs argv s) = record EventLoop s3).
Proof.
  destruct (parse_args_result E argv (record (Out (Text banner)) s))
    as [(prog & fl & path & extra & Hargv & Hok & Hp & Hrun)
       | (s1 & Hrun & _)].
  2:{ rewrite (main_stop E fs argv s s1 1 Hrun). cbn [fst snd].
      split; [intros n H; congruence|].
      split; [intros u H; discriminate H | intros H; discriminate H]. }
  rewrite (main_serve E fs argv _ s _ Hrun). cbn [hd].
  destruct (bootstrap_any E
              (after_options fl
                 (set_progName (Some prog) (record (Out (Text banner)) s))))
    as [[(server & s2 & Hb) | (s2 & Hb)] _].
  - rewrite (serve_run E fs path _ s2 server Hb).
    destruct (load_any E fs path server s2) as [Ho _].
    destruct (load E fs path server s2) as [[[]| | | |] s3];
      cbn in Ho; try contradiction; cbn [fst snd].
    + split; [intros n H; discriminate H|].
      split; [intros u H; discriminate H | intros _; eauto].
    + split; [intros n H; discriminate H|].
      split; [intros u H; discriminate H | intros H; discriminate H].
    + split; [intros n H; discriminate H|].
      split; [intros u H; discriminate H | intros H; discriminate H].
  - rewrite (serve_stop E fs path _ s2 1 Hb). cbn [fst snd].
    split; [intros n H; congruence|].
    split; [intros u H; discriminate H | intros H; discriminate H].
Qed.

(** X8: when the program exits, it does so before the definition file is
    opened: the run is the same whatever the file system holds. *)
Theorem exit_is_before_the_file
    (E : Engine) (fs fs' : filesystem) (argv : list string) (s : state E)
    (n : Z) :
  fst (main E fs argv s) = Exit n ->
  main E fs' argv s = main E fs argv s.
Proof.
  intros H.
  destruct (parse_args_result E argv (record (Out (Text banner)) s))
    as [(prog & fl & path & extra & Hargv & Hok & Hp & Hrun)
       | (s1 & Hrun & _)].
  2:{ rewrite (main_stop E fs argv s s1 1 Hrun).
      apply (main_stop E fs' argv s s1 1 Hrun). }
  rewrite (main_serve E fs argv _ s _ Hrun) in H |- *.
  rewrite (main_serve E fs' argv _ s _ Hrun). cbn [hd] in H |- *.
  destruct (bootstrap_any E
              (after_options fl
                 (set_progName (Some prog) (record (Out (Text banner)) s))))
    as [[(server & s2 & Hb) | (s2 & Hb)] _].
  - exfalso. rewrite (serve_run E fs path _ s2 server Hb) in H.
    destruct (load_any E fs path server s2) as [Ho _].
    destruct (load E fs path server s2) as [[[]| | | |] s3];
      cbn in Ho; try contradiction; discriminate H.
  - rewrite (serve_stop E fs path _ s2 1 Hb).
    apply (serve_stop E fs' path _ s2 1 Hb).
Qed.

Lemma exit_is_before_the_file_witness :
  let fs : filesystem := fun _ => None in
  let fs' : filesystem := fun _ => Some ("rtsp://a/1 one" ++ nl) in
  main sim fs' ["proxy"; "streams.txt"] sim_closed
  = main sim fs ["proxy"; "streams.txt"] sim_closed.
Proof.
  intros fs fs'.
  apply (exit_is_before_the_file sim fs fs' ["proxy"; "streams.txt"]
           sim_closed 1). reflexivity.
Defined.

(** X13: no option sets credentials or a tunnelling port, so whatever the
    arguments, the engine and the files, every session of a run is
    created without a user name, without a password and with HTTP
    tunnelling off. *)
Theorem sessions_have_no_credentials
    (E : Engine) (fs : filesystem) (argv : list string) (w : World E) :
  Forall plain (trace (snd (main E fs argv (initial w)))).
Proof.
  assert (U0 : unconfigured (record (Out (Text banner)) (initial w))).
  { unfold unconfigured. cbn. repeat split. repeat constructor. }
  destruct (parse_args_result E argv (record (Out (Text banner)) (initial w)))
    as [(prog & fl & path & extra & Hargv & Hok & Hp & Hrun)
       | (s1 & Hrun & Ht & _)].
  2:{ rewrite (main_stop E fs argv _ s1 1 Hrun). cbn [snd]. rewrite Ht.
      apply Forall_app. split; [apply U0 | cbn; repeat constructor]. }
  rewrite (main_serve E fs argv _ _ _ Hrun). cbn [hd].
  assert (U1 : unconfigured
                 (after_options fl
                    (set_progName (Some prog)
                       (record (Out (Text banner)) (initial w))))).
  { destruct (after_options_settings E fl
                (set_progName (Some prog)
                   (record (Out (Text banner)) (initial w))))
      as (A1 & A2 & A3).
    destruct (after_options_trace E fl
                (set_progName (Some prog)
                   (record (Out (Text banner)) (initial w))))
      as (At & _ & _).
    unfold unconfigured. rewrite A1, A2, A3, At. exact U0. }
  destruct (bootstrap_any E
              (after_options fl
                 (set_progName (Some prog)
                    (record (Out (Text banner)) (initial w)))))
    as [Hcases Hu2].
  specialize (Hu2 U1).
  destruct Hcases as [(server & s2 & Hb) | (s2 & Hb)].
  - rewrite Hb in Hu2. cbn [snd] in Hu2.
    rewrite (serve_run E fs path _ s2 server Hb).
    destruct (load_any E fs path server s2) as [_ Hu3]. specialize (Hu3 Hu2).
    destruct (load E fs path server s2) as [[[]| | | |] s3];
      cbn [snd] in *; try apply Hu3.
    apply Forall_app. split; [apply Hu3 | repeat constructor].
  - rewrite Hb in Hu2. rewrite (serve_stop E fs path _ s2 1 Hb).
    apply Hu2.
Qed.

Lemma bootstrap_ret_settings (E : Engine) (s : state E)
      (server : RTSPServer E) (s' : state E) :
  bootstrap E s = (Ret server, s') ->
  verbosityLevel s' = verbosityLevel s
  /\ username s' = username s
  /\ password s' = password s
  /\ tunnelOverHTTPPortNum s' = tunnelOverHTTPPortNum s
  /\ creations (trace s') = creations (trace s).
Proof.
  unfold bootstrap, bind, gets, createRTSPServer.
  destruct (RTSPServer_createNew E (rtspServerPortNum s) (world s))
    as [[sv|] w1]; cbn.
  - intros H. injection H as _ <-. cbn. rewrite creations_app. cbn.
    rewrite app_nil_r. repeat split.
  - destruct (rtspServerPortNum s =? 554); cbn; [discriminate|].
    destruct (RTSPServer_createNew E 554 w1) as [[sv|] w2]; cbn;
      [|discriminate].
    intros H. injection H as _ <-. cbn. rewrite !creations_app. cbn.
    rewrite !app_nil_r. repeat split.
Qed.

Lemma accepted_shape (E : Engine) (argv rest : list string)
      (s s1 : state E) :
  parse_args E argv s = (Ret rest, s1) ->
  username s1 = username s
  /\ password s1 = password s
  /\ tunnelOverHTTPPortNum s1 = tunnelOverHTTPPortNum s
  /\ trace s1 = trace s.
Proof.
  intros H.
  destruct (parse_args_result E argv s)
    as [(prog & fl & path & extra & Hargv & Hok & Hp & Hrun)
       | (s' & Hrun & _)]; rewrite Hrun in H; [|discriminate H].
  injection H as _ <-.
  destruct (after_options_settings E fl (set_progName (Some prog) s))
    as (A1 & A2 & A3).
  destruct (after_options_trace E fl (set_progName (Some prog) s))
    as (At & _ & _).
  rewrite A1, A2, A3, At. repeat split.
Qed.

(** X16: a run whose arguments are accepted, whose server is created and
    whose definition file opens and has no blank line ends in the event
    loop, having created and registered exactly the sessions of the lines
    that do not begin with [#], in the order of the file, each without
    credentials, without tunnelling and with the verbosity level the
    options set. *)
Theorem run_registers_the_file
    (E : Engine) (fs : filesystem) (argv : list string) (w : World E)
    (rest : list string) (s1 : state E) (server : RTSPServer E)
    (s2 : state E) (bytes : string) :
  parse_args E argv (record (Out (Text banner)) (initial w))
  = (Ret rest, s1) ->
  bootstrap E s1 = (Ret server, s2) ->
  fs (c_str (hd EmptyString rest)) = Some bytes ->
  forallb readable (getlines bytes) = true ->
  let entries := filter (fun l => negb (is_comment l)) (getlines bytes) in
  let r := main E fs argv (initial w) in
  fst r = Forever
  /\ creations (trace (snd r))
     = map (fun l => CreateSession (c_str l) (c_str (name_of l))
                       None None 0 (verbosityLevel s1)) entries
  /\ registrations (trace (snd r)) = List.length entries
  /\ last (trace (snd r)) AddSession = EventLoop.
Proof.
  intros Hparse Hboot Hfs Hr entries r. subst entries r.
  rewrite (main_serve E fs argv rest _ s1 Hparse).
  rewrite (serve_run E fs _ s1 s2 server Hboot).
  destruct (load_lines_creations E server (getlines bytes) s2 Hr)
    as (s3 & Hl & Hg & C & R).
  unfold load. rewrite Hfs, Hl. cbn [fst snd record trace].
  destruct (bootstrap_ret_settings E s1 server s2 Hboot)
    as (B1 & B2 & B3 & B4 & B5).
  destruct (accepted_shape E argv rest _ s1 Hparse) as (U1 & U2 & U3 & Ut).
  cbn in U1, U2, U3, Ut.
  rewrite creations_app, registrations_app, last_last.
  cbn [creations registrations]. rewrite app_nil_r, C, R, B5.
  rewrite (bootstrap_ret_registrations E s1 server s2 Hboot).
  rewrite Ut. cbn [creations registrations app].
  split; [reflexivity|]. split; [|split; [lia | reflexivity]].
  apply map_ext. intros l. unfold entry_session.
  rewrite B1, B2, B3, B4, U1, U2, U3. reflexivity.
Qed.

Lemma run_registers_the_file_witness :
  let bytes :=
    "# cameras" ++ nl ++ "rtsp://a/1 one" ++ nl ++ "rtsp://b/2 two" ++ nl in
  let fs : filesystem := fun _ => Some bytes in
  let r := main sim fs ["proxy"; "-V"; "streams.txt"] sim_start in
  fst r = Forever
  /\ creations (trace (snd r))
     = [CreateSession "rtsp://a/1 one" "one" None None 0 2;
        CreateSession "rtsp://b/2 two" "two" None None 0 2]
  /\ registrations (trace (snd r)) = 2%nat
  /\ last (trace (snd r)) AddSession = EventLoop.
Proof.
  intros bytes fs r.
  pose (s1 := snd (parse_args sim ["proxy"; "-V"; "streams.txt"]
                     (record (Out (Text banner)) sim_start))).
  apply (run_registers_the_file sim fs ["proxy"; "-V"; "streams.txt"]
           ([554; 8554], EmptyString) ["streams.txt"] s1 554
           (snd (bootstrap sim s1)) bytes); reflexivity.
Defined.
